(** * MatterSubsystem: staged kinematic queries and constraint projection

    A shallow embedding of [simbody/internal/MatterSubsystem.h].

    [Real] (a C++ [double]) is idealised as a real number: every identity
    below is an identity of exact arithmetic.  The methods the header only
    declares (they dispatch to the concrete [MatterSubsystemRep]) are
    modelled from the specification and are marked as such. *)

From Stdlib Require Import Reals Lra List Arith Lia Bool.
Import ListNotations.

Open Scope R_scope.

(* ================================================================== *)
(** * SpatialAlgebra: Vec3, Mat33, Rotation, Transform, SpatialVec     *)
(* ================================================================== *)

Module SpatialAlgebra.

Record Vec3 : Type := mkVec3 { vx : R; vy : R; vz : R }.

Definition zeroVec3 : Vec3 := mkVec3 0 0 0.

(** [a + b] *)
Definition vadd (a b : Vec3) : Vec3 :=
  mkVec3 (vx a + vx b) (vy a + vy b) (vz a + vz b).

(** [a - b] *)
Definition vsub (a b : Vec3) : Vec3 :=
  mkVec3 (vx a - vx b) (vy a - vy b) (vz a - vz b).

(** [-a] *)
Definition vneg (a : Vec3) : Vec3 := mkVec3 (- vx a) (- vy a) (- vz a).

(** [~a * b], the dot product *)
Definition dot (a b : Vec3) : R := vx a * vx b + vy a * vy b + vz a * vz b.

(** [a % b], the cross product *)
Definition cross (a b : Vec3) : Vec3 :=
  mkVec3 (vy a * vz b - vz a * vy b)
         (vz a * vx b - vx a * vz b)
         (vx a * vy b - vy a * vx b).

(** A 3x3 matrix, stored by rows. *)
Record Mat33 : Type := mkMat33 { row0 : Vec3; row1 : Vec3; row2 : Vec3 }.

Definition col0 (M : Mat33) : Vec3 := mkVec3 (vx (row0 M)) (vx (row1 M)) (vx (row2 M)).
Definition col1 (M : Mat33) : Vec3 := mkVec3 (vy (row0 M)) (vy (row1 M)) (vy (row2 M)).
Definition col2 (M : Mat33) : Vec3 := mkVec3 (vz (row0 M)) (vz (row1 M)) (vz (row2 M)).

Definition identity33 : Mat33 :=
  mkMat33 (mkVec3 1 0 0) (mkVec3 0 1 0) (mkVec3 0 0 1).

(** [~M] *)
Definition transpose (M : Mat33) : Mat33 := mkMat33 (col0 M) (col1 M) (col2 M).

(** [M * v] *)
Definition mulMV (M : Mat33) (v : Vec3) : Vec3 :=
  mkVec3 (dot (row0 M) v) (dot (row1 M) v) (dot (row2 M) v).

(** [A * B] *)
Definition mulMM (A B : Mat33) : Mat33 :=
  mkMat33
    (mkVec3 (dot (row0 A) (col0 B)) (dot (row0 A) (col1 B)) (dot (row0 A) (col2 B)))
    (mkVec3 (dot (row1 A) (col0 B)) (dot (row1 A) (col1 B)) (dot (row1 A) (col2 B)))
    (mkVec3 (dot (row2 A) (col0 B)) (dot (row2 A) (col1 B)) (dot (row2 A) (col2 B))).

(** A [Rotation] is stored as a [Mat33]; the class keeps it orthonormal. *)
Definition Rotation : Type := Mat33.

Definition orthonormal (M : Rotation) : Prop :=
  mulMM (transpose M) M = identity33 /\ mulMM M (transpose M) = identity33.

(** Modelled from the spec: the [Transform] class of SimTKcommon, which the
    header includes but which is not part of the sources at hand.  A
    transform is an (orthonormal rotation, translation) pair, never a raw
    matrix. *)
Record Transform : Type := mkTransform { getR : Rotation; getT : Vec3 }.

Definition identityTransform : Transform := mkTransform identity33 zeroVec3.

(** [X * p = R p + T]: re-express a station and shift it to the new origin. *)
Definition applyTransform (X : Transform) (p : Vec3) : Vec3 :=
  vadd (mulMV (getR X) p) (getT X).

(** [~X * p = ~R (p - T)]. *)
Definition applyInverseTransform (X : Transform) (p : Vec3) : Vec3 :=
  mulMV (transpose (getR X)) (vsub p (getT X)).

(** [X_AC = X_AB * X_BC]: rotations compose, [T_AC = T_AB + R_AB * T_BC]. *)
Definition compose (X_AB X_BC : Transform) : Transform :=
  mkTransform (mulMM (getR X_AB) (getR X_BC))
              (vadd (getT X_AB) (mulMV (getR X_AB) (getT X_BC))).

(** [~X] as a transform of its own: [(~R, -(~R * T))]. *)
Definition invert (X : Transform) : Transform :=
  mkTransform (transpose (getR X))
              (vneg (mulMV (transpose (getR X)) (getT X))).

(** [SpatialVec] is a [Vec<2,Vec3>]: entry [0] is the angular part and
    entry [1] the linear part. *)
Record SpatialVec : Type := mkSpatialVec { sv0 : Vec3; sv1 : Vec3 }.

Definition zeroSpatialVec : SpatialVec := mkSpatialVec zeroVec3 zeroVec3.

Definition svsub (a b : SpatialVec) : SpatialVec :=
  mkSpatialVec (vsub (sv0 a) (sv0 b)) (vsub (sv1 a) (sv1 b)).

(** Modelled from the spec: [MassProperties] of SimTKcommon (mass, mass
    centre and inertia about the body origin, in the body frame), with
    [reexpress] the similarity transform of the spatial inertia. *)
Record MassProperties : Type :=
  mkMassProperties { getMass : R; getMassCenter : Vec3; getInertia : Mat33 }.

Definition reexpress (mp : MassProperties) (R_AB : Rotation) : MassProperties :=
  mkMassProperties
    (getMass mp)
    (mulMV (transpose R_AB) (getMassCenter mp))
    (mulMM (transpose R_AB) (mulMM (getInertia mp) R_AB)).

End SpatialAlgebra.
Export SpatialAlgebra.

(* ================================================================== *)
(** * StageLadder: the ordered realization stages                      *)
(* ================================================================== *)

Inductive Stage : Type :=
  | Topology | Model | Instance | Time | Position | Velocity | Dynamics | Acceleration.

Definition rank (g : Stage) : nat :=
  match g with
  | Topology => 0 | Model => 1 | Instance => 2 | Time => 3
  | Position => 4 | Velocity => 5 | Dynamics => 6 | Acceleration => 7
  end%nat.

Definition allStages : list Stage :=
  [Topology; Model; Instance; Time; Position; Velocity; Dynamics; Acceleration].

Definition stage_leb (a b : Stage) : bool := (rank a <=? rank b)%nat.
Definition stage_ltb (a b : Stage) : bool := (rank a <? rank b)%nat.

(** The stage just below [g] (Topology is the bottom of the ladder). *)
Definition prevStage (g : Stage) : Stage :=
  match g with
  | Topology => Topology | Model => Topology | Instance => Model
  | Time => Instance | Position => Time | Velocity => Position
  | Dynamics => Velocity | Acceleration => Dynamics
  end.

Definition minStage (a b : Stage) : Stage := if stage_leb a b then a else b.

(* ================================================================== *)
(** * Errors                                                           *)
(* ================================================================== *)

Inductive Error : Type :=
  | StageViolation (required actual : Stage)
  | InvalidTopology
  | DomainError.

Inductive result (A : Type) : Type :=
  | Ok (a : A)
  | Err (e : Error).
Arguments Ok {A} a.
Arguments Err {A} e.

Definition bind {A B : Type} (r : result A) (k : A -> result B) : result B :=
  match r with
  | Ok a => k a
  | Err e => Err e
  end.

Notation "x <- r ;; k" := (bind r (fun x => k))
  (at level 61, r at next level, right associativity).

(* ================================================================== *)
(** * BodyTree, State and KinematicCache                               *)
(* ================================================================== *)

Definition BodyId : Type := nat.
Definition GroundId : BodyId := 0%nat.

Definition Vector : Type := list R.

Record Body : Type := mkBody {
  parent : BodyId;     (* not used for Ground, the root *)
  nq : nat;            (* generalized coordinates of the inboard mobilizer *)
  nu : nat             (* generalized speeds of the inboard mobilizer *)
}.

Record InstanceCache : Type := mkInstanceCache {
  bodyMassProperties : list MassProperties
}.

Record PositionCache : Type := mkPositionCache {
  bodyTransform : list Transform;    (* X_GB, per body *)
  qErr          : Vector;            (* position-level constraint errors *)
  qErrWeights   : Vector             (* their diagonal weights *)
}.

Record VelocityCache : Type := mkVelocityCache {
  bodyVelocity : list SpatialVec;    (* V_GB = {w_GB, v_GB}, per body *)
  uErr         : Vector;             (* velocity-level constraint errors *)
  uErrWeights  : Vector
}.

Record State : Type := mkState {
  stage         : Stage;             (* the realized stage marker *)
  time          : R;
  q             : Vector;
  u             : Vector;
  udot          : Vector;
  instanceCache : InstanceCache;
  positionCache : PositionCache;
  velocityCache : VelocityCache
}.

Definition setStage (s : State) (g : Stage) : State :=
  mkState g (time s) (q s) (u s) (udot s)
          (instanceCache s) (positionCache s) (velocityCache s).

Definition setQ (s : State) (q' : Vector) : State :=
  mkState (stage s) (time s) q' (u s) (udot s)
          (instanceCache s) (positionCache s) (velocityCache s).

Definition setU (s : State) (u' : Vector) : State :=
  mkState (stage s) (time s) (q s) u' (udot s)
          (instanceCache s) (positionCache s) (velocityCache s).

Definition setInstanceCache (s : State) (c : InstanceCache) : State :=
  mkState (stage s) (time s) (q s) (u s) (udot s)
          c (positionCache s) (velocityCache s).

Definition setPositionCache (s : State) (c : PositionCache) : State :=
  mkState (stage s) (time s) (q s) (u s) (udot s)
          (instanceCache s) c (velocityCache s).

Definition setVelocityCache (s : State) (c : VelocityCache) : State :=
  mkState (stage s) (time s) (q s) (u s) (udot s)
          (instanceCache s) (positionCache s) c.

(** A dense matrix stored by rows, as handed over by the Jacobian hooks. *)
Definition Matrix : Type := list (list R).

(** The concrete implementation behind the handle ([MatterSubsystemRep]):
    the frozen topology and the per-stage realize hooks. *)
Record MatterSubsystem : Type := mkMatterSubsystem {
  bodies        : list Body;          (* body 0 is Ground *)
  nParticles    : nat;
  instanceHook  : InstanceCache;
  positionHook  : R -> Vector -> PositionCache;
  velocityHook  : R -> Vector -> Vector -> VelocityCache;
  qJacobian     : R -> Vector -> Matrix;            (* G = de/dq *)
  uJacobian     : R -> Vector -> Vector -> Matrix;  (* G = de/du *)
  qWeights      : Vector;             (* diagonal of W on coordinates *)
  uWeights      : Vector;             (* diagonal of W on speeds *)
  invertMatrix  : Matrix -> Matrix;   (* dense linear-algebra back end *)
  iterationCap  : nat
}.

(** ** Topology stage (no state) *)

Definition getNBodies (m : MatterSubsystem) : nat := length (bodies m).
Definition getNParticles (m : MatterSubsystem) : nat := nParticles m.
Definition getNMobilities (m : MatterSubsystem) : nat :=
  list_sum (map nu (bodies m)).

(** ** Stage-gated reads *)

(** Reading a quantity defined at stage [required] is valid only if the
    realized stage is at least [required]. *)
Definition requireStage (s : State) (required : Stage) : result unit :=
  if stage_leb required (stage s) then Ok tt
  else Err (StageViolation required (stage s)).

Definition lookupBody {A : Type} (l : list A) (b : BodyId) : result A :=
  match nth_error l b with
  | Some a => Ok a
  | None => Err DomainError
  end.

(** Modelled from the spec: the Instance-stage accessor the header only
    declares. *)
Definition getBodyMassProperties (s : State) (b : BodyId) : result MassProperties :=
  _ <- requireStage s Instance ;;
  lookupBody (bodyMassProperties (instanceCache s)) b.

(** Modelled from the spec: the Position-stage accessor the header only
    declares.  It returns the cached [X_GB] or fails; it never recomputes. *)
Definition getBodyPosition (s : State) (b : BodyId) : result Transform :=
  _ <- requireStage s Position ;;
  lookupBody (bodyTransform (positionCache s)) b.

(** Modelled from the spec: the Velocity-stage accessor the header only
    declares. *)
Definition getBodyVelocity (s : State) (b : BodyId) : result SpatialVec :=
  _ <- requireStage s Velocity ;;
  lookupBody (bodyVelocity (velocityCache s)) b.

(* ================================================================== *)
(** * QueryFacade: the inline operators of the header                  *)
(* ================================================================== *)

(** [calcBodyMassPropertiesInBody(s, objectBodyA, inBodyB)] *)
Definition calcBodyMassPropertiesInBody
    (s : State) (objectBodyA inBodyB : BodyId) : result MassProperties :=
  mp <- getBodyMassProperties s objectBodyA ;;
  if Nat.eqb inBodyB objectBodyA then Ok mp
  else
    (* must be at Stage >= Position *)
    X_GA <- getBodyPosition s objectBodyA ;;
    let R_AG := transpose (getR X_GA) in
    R_AB <- (if negb (Nat.eqb inBodyB GroundId)
             then X_GB <- getBodyPosition s inBodyB ;;
                  Ok (mulMM R_AG (getR X_GB))
             else Ok R_AG) ;;
    Ok (reexpress mp R_AB).

Definition getBodyRotation (s : State) (body : BodyId) : result Rotation :=
  X <- getBodyPosition s body ;; Ok (getR X).

Definition getBodyLocation (s : State) (body : BodyId) : result Vec3 :=
  X <- getBodyPosition s body ;; Ok (getT X).

Definition getBodyAngularVelocity (s : State) (body : BodyId) : result Vec3 :=
  V <- getBodyVelocity s body ;; Ok (sv0 V).

Definition getBodyLinearVelocity (s : State) (body : BodyId) : result Vec3 :=
  V <- getBodyVelocity s body ;; Ok (sv1 V).

(** [locationInG = X_GB * stationB] *)
Definition calcStationLocation
    (s : State) (bodyB : BodyId) (stationB : Vec3) : result Vec3 :=
  X_GB <- getBodyPosition s bodyB ;;
  Ok (applyTransform X_GB stationB).

(** [stationInA = ~X_GA * (X_GB * stationB)] *)
Definition calcStationLocationInBody
    (s : State) (bodyB : BodyId) (stationB : Vec3) (bodyA : BodyId) : result Vec3 :=
  X_GA <- getBodyPosition s bodyA ;;
  p_G <- calcStationLocation s bodyB stationB ;;
  Ok (applyInverseTransform X_GA p_G).

(** [vectorInG = R_GB * vectorInB] *)
Definition calcVectorOrientation
    (s : State) (bodyB : BodyId) (vectorB : Vec3) : result Vec3 :=
  R_GB <- getBodyRotation s bodyB ;;
  Ok (mulMV R_GB vectorB).

(** [vectorInA = ~R_GA * (R_GB * vectorInB)] *)
Definition calcVectorOrientationInBody
    (s : State) (bodyB : BodyId) (vectorB : Vec3) (bodyA : BodyId) : result Vec3 :=
  R_GA <- getBodyRotation s bodyA ;;
  v_G <- calcVectorOrientation s bodyB vectorB ;;
  Ok (mulMV (transpose R_GA) v_G).

(** [v + w X r] for a station fixed on body B, in Ground. *)
Definition calcStationVelocity
    (s : State) (bodyB : BodyId) (stationB : Vec3) : result Vec3 :=
  V_GB <- getBodyVelocity s bodyB ;;
  stationB_G <- calcVectorOrientation s bodyB stationB ;;
  Ok (vadd (sv1 V_GB) (cross (sv0 V_GB) stationB_G)).

(** Velocity of a station fixed on body B relative to body A's frame,
    expressed in A. *)
Definition calcStationVelocityInBody
    (s : State) (bodyB : BodyId) (stationB : Vec3) (bodyA : BodyId) : result Vec3 :=
  V_GB <- getBodyVelocity s bodyB ;;
  V_GA <- getBodyVelocity s bodyA ;;
  let Vdiff_AB := svsub V_GB V_GA in
  p_G <- calcStationLocation s bodyB stationB ;;
  T_GA <- getBodyLocation s bodyA ;;
  let stationA_G := vsub p_G T_GA in
  let v_AsB_G := vadd (sv1 Vdiff_AB) (cross (sv0 Vdiff_AB) stationA_G) in
  R_GA <- getBodyRotation s bodyA ;;
  Ok (mulMV (transpose R_GA) v_AsB_G).

(** ** Force accumulators *)

Section ForceArrays.
(** What a freshly allocated, not yet initialised [Real] happens to hold. *)
Variable uninit : R.

Definition uninitVec3 : Vec3 := mkVec3 uninit uninit uninit.
Definition uninitSpatialVec : SpatialVec := mkSpatialVec uninitVec3 uninitVec3.

(** [v.resize(n)]: the array gets [n] entries; new ones are uninitialised. *)
Definition resize {A : Type} (junk : A) (n : nat) (v : list A) : list A :=
  firstn n v ++ repeat junk (n - length v).

(** [v.setToZero()] *)
Definition setToZero {A : Type} (zero : A) (v : list A) : list A :=
  map (fun _ => zero) v.

Definition resetForces (m : MatterSubsystem)
    (bodyForces : list SpatialVec) (particleForces : list Vec3)
    (mobilityForces : Vector)
    : list SpatialVec * list Vec3 * Vector :=
  let bodyForces := resize uninitSpatialVec (getNBodies m) bodyForces in
  let bodyForces := setToZero zeroSpatialVec bodyForces in
  let particleForces := resize uninitVec3 (getNParticles m) particleForces in
  let particleForces := setToZero zeroVec3 particleForces in
  let mobilityForces := resize uninit (getNMobilities m) mobilityForces in
  let mobilityForces := setToZero 0 mobilityForces in
  (bodyForces, particleForces, mobilityForces).
End ForceArrays.

(* ================================================================== *)
(** * StageLadder and the state solvers the header only declares       *)
(* ================================================================== *)

(** Modelled from the spec: [invalidate(state, atOrBelow)] drops the
    realized stage to just below [g] (it never raises it). *)
Definition invalidate (s : State) (g : Stage) : State :=
  setStage s (minStage (stage s) (prevStage g)).

(** Modelled from the spec: one rung of the ladder.  The per-stage realize
    hook fills that stage's cache from the state variables. *)
Definition realizeStage (m : MatterSubsystem) (s : State) (g : Stage) : State :=
  let s' :=
    match g with
    | Instance => setInstanceCache s (instanceHook m)
    | Position => setPositionCache s (positionHook m (time s) (q s))
    | Velocity => setVelocityCache s (velocityHook m (time s) (q s) (u s))
    | _ => s
    end in
  setStage s' g.

(** Modelled from the spec: [advanceTo(state, target)] recomputes every
    stage between realized+1 and target, in order. *)
Definition advanceTo (m : MatterSubsystem) (s : State) (target : Stage) : State :=
  fold_left (realizeStage m)
    (filter (fun g => stage_ltb (stage s) g && stage_leb g target) allStages)
    s.

(** Index in [q] of the first coordinate of a body's mobilizer. *)
Definition qStart (m : MatterSubsystem) (body : BodyId) : nat :=
  list_sum (map nq (firstn body (bodies m))).

Fixpoint replaceNth (k : nat) (x : R) (v : Vector) : Vector :=
  match v, k with
  | [], _ => []
  | _ :: v', O => x :: v'
  | y :: v', S k' => y :: replaceNth k' x v'
  end.

(** Modelled from the spec: [setMobilizerQ], a Model-stage solver the header
    only declares.  Writing a coordinate invalidates Position and above. *)
Definition setMobilizerQ (m : MatterSubsystem) (s : State)
    (body : BodyId) (mobilityIndex : Z) (mobilityValue : R) : result State :=
  _ <- requireStage s Model ;;
  b <- lookupBody (bodies m) body ;;
  if ((0 <=? mobilityIndex)%Z && (mobilityIndex <? Z.of_nat (nq b))%Z)%bool then
    let k := (qStart m body + Z.to_nat mobilityIndex)%nat in
    if (k <? length (q s))%nat
    then Ok (invalidate (setQ s (replaceNth k mobilityValue (q s))) Position)
    else Err DomainError
  else Err DomainError.

(** Modelled from the spec: [calcBodyTransformInBody], declared only.
    [X_BA = ~X_GB * X_GA], composed from the two cached transforms. *)
Definition calcBodyTransformInBody
    (s : State) (objectBodyA inBodyB : BodyId) : result Transform :=
  X_GA <- getBodyPosition s objectBodyA ;;
  X_GB <- getBodyPosition s inBodyB ;;
  Ok (compose (invert X_GB) X_GA).

(* ================================================================== *)
(** * ConstraintProjector                                              *)
(* ================================================================== *)

(** ** Dense linear algebra on [Vector] and [Matrix] *)

Definition addV (a b : Vector) : Vector :=
  map (fun p => fst p + snd p) (combine a b).

Definition subV (a b : Vector) : Vector :=
  map (fun p => fst p - snd p) (combine a b).

Definition negV (a : Vector) : Vector := map Ropp a.

Definition dotV (a b : Vector) : R :=
  fold_right Rplus 0 (map (fun p => fst p * snd p) (combine a b)).

(** [G * v] *)
Definition mulMatVec (G : Matrix) (v : Vector) : Vector :=
  map (fun row => dotV row v) G.

(** The [n] columns of [G], i.e. the rows of [~G]. *)
Definition columns (n : nat) (G : Matrix) : Matrix :=
  map (fun j => map (fun row => nth j row 0) G) (seq 0 n).

(** [diag(d) * M] *)
Definition scaleRows (d : Vector) (M : Matrix) : Matrix :=
  map (fun p => map (Rmult (fst p)) (snd p)) (combine d M).

(** [A * B], for [B] with [n] columns *)
Definition mulMatMat (n : nat) (A B : Matrix) : Matrix :=
  map (fun rowA => map (fun colB => dotV rowA colB) (columns n B)) A.

(** [||e||_W = sqrt(~e W e)] for the diagonal weights [w]. *)
Definition weightedNorm (w e : Vector) : R :=
  sqrt (dotV e (map (fun p => fst p * snd p) (combine w e))).

(** Modelled from the spec: the weighted-least-squares operator
    [W^-1 ~G (G W^-1 ~G)^-1] shared by the correction and by the projection
    of [y_err]; [W] is the diagonal [w]. *)
Definition pseudoInverseApply (m : MatterSubsystem)
    (w : Vector) (G : Matrix) (b : Vector) : Vector :=
  let WinvGt := scaleRows (map Rinv w) (columns (length w) G) in
  let A := mulMatMat (length G) G WinvGt in
  mulMatVec WinvGt (mulMatVec (invertMatrix m A) b).

(** Modelled from the spec: [Delta = - W^-1 ~G (G W^-1 ~G)^-1 e]. *)
Definition minNormCorrection (m : MatterSubsystem)
    (w : Vector) (G : Matrix) (e : Vector) : Vector :=
  negV (pseudoInverseApply m w G e).

(** Modelled from the spec: the same operator strips from [y] its component
    along the constraint directions. *)
Definition projectOut (m : MatterSubsystem)
    (w : Vector) (G : Matrix) (y : Vector) : Vector :=
  subV y (pseudoInverseApply m w G (mulMatVec G y)).

(** ** Residuals *)

Definition qNorm (s : State) : R :=
  weightedNorm (qErrWeights (positionCache s)) (qErr (positionCache s)).

Definition uNorm (s : State) : R :=
  weightedNorm (uErrWeights (velocityCache s)) (uErr (velocityCache s)).

(** Modelled from the spec: [calcQConstraintNorm], declared only; a
    Position-stage read of the cached errors. *)
Definition calcQConstraintNorm (s : State) : result R :=
  _ <- requireStage s Position ;; Ok (qNorm s).

(** Modelled from the spec: [calcUConstraintNorm], declared only. *)
Definition calcUConstraintNorm (s : State) : result R :=
  _ <- requireStage s Velocity ;; Ok (uNorm s).

(** ** The memory a projection call works on *)

Inductive Write : Type := WroteQ | WroteU | WroteYErr | WroteStage.

(** The caller's [State&] and [Vector& y_err], with the record of every
    write made through them. *)
Record Workspace : Type := mkWorkspace {
  wState : State;
  wYErr  : Vector;
  wLog   : list Write
}.

Definition untouched (s : State) (y_err : Vector) : Workspace :=
  mkWorkspace s y_err [].

(** Store [q'] and re-evaluate the position-level cache there. *)
Definition reevaluateAtQ (m : MatterSubsystem) (s : State) (q' : Vector) : State :=
  setStage (setPositionCache (setQ s q') (positionHook m (time s) q')) Position.

(** Store [u'] and re-evaluate the velocity-level cache there. *)
Definition reevaluateAtU (m : MatterSubsystem) (s : State) (u' : Vector) : State :=
  setStage (setVelocityCache (setU s u') (velocityHook m (time s) (q s) u')) Velocity.

Definition updQ (m : MatterSubsystem) (w : Workspace) (q' : Vector) : Workspace :=
  mkWorkspace (reevaluateAtQ m (wState w) q') (wYErr w) (wLog w ++ [WroteQ]).

Definition updU (m : MatterSubsystem) (w : Workspace) (u' : Vector) : Workspace :=
  mkWorkspace (reevaluateAtU m (wState w) u') (wYErr w) (wLog w ++ [WroteU]).

Definition updYErr (w : Workspace) (y' : Vector) : Workspace :=
  mkWorkspace (wState w) y' (wLog w ++ [WroteYErr]).

(** Lower the realized stage to no higher than [g]. *)
Definition lowerStage (w : Workspace) (g : Stage) : Workspace :=
  mkWorkspace (setStage (wState w) (minStage (stage (wState w)) g))
              (wYErr w) (wLog w ++ [WroteStage]).

(** The coordinates after one correction (step 2). *)
Definition correctedQ (m : MatterSubsystem) (s : State) : Vector :=
  addV (q s)
       (minNormCorrection m (qWeights m) (qJacobian m (time s) (q s))
                          (qErr (positionCache s))).

Definition correctedU (m : MatterSubsystem) (s : State) : Vector :=
  addV (u s)
       (minNormCorrection m (uWeights m) (uJacobian m (time s) (q s) (u s))
                          (uErr (velocityCache s))).

Definition stepQ (m : MatterSubsystem) (w : Workspace) : Workspace :=
  updQ m w (correctedQ m (wState w)).

Definition stepU (m : MatterSubsystem) (w : Workspace) : Workspace :=
  updU m w (correctedU m (wState w)).

(** The residual the position hook reports at coordinates [qv]. *)
Definition qNormAt (m : MatterSubsystem) (t : R) (qv : Vector) : R :=
  let c := positionHook m t qv in weightedNorm (qErrWeights c) (qErr c).

(** Of two iterates, the one with the smaller residual (the earlier on a tie). *)
Definition betterQ (m : MatterSubsystem) (t : R) (best cur : Vector) : Vector :=
  if Rle_dec (qNormAt m t best) (qNormAt m t cur) then best else cur.

(** Modelled from the spec: steps 3 and 4.  [w] holds the latest corrected
    iterate, [best] the best iterate among the earlier ones; [fuel] is what
    remains of the iteration cap. *)
Fixpoint projectQLoop (m : MatterSubsystem) (tol : R) (fuel : nat)
    (w : Workspace) (best : Vector) : Workspace :=
  let s := wState w in
  if Rle_dec (qNorm s) tol then w
  else
    let best' := betterQ m (time s) best (q s) in
    match fuel with
    | O => updQ m w best'
    | S fuel' => projectQLoop m tol fuel' (stepQ m w) best'
    end.

(** Modelled from the spec: [projectQConstraints], declared only
    (ConstraintProjector, steps 1 to 5, position case). *)
Definition projectQConstraints (m : MatterSubsystem) (s : State)
    (y_err : Vector) (tol targetTol : R) : result (bool * Workspace) :=
  (* step 1: the residual at the current state; already acceptable? *)
  n0 <- calcQConstraintNorm s ;;
  if Rle_dec n0 targetTol then Ok (false, untouched s y_err)
  else
    (* step 2: one correction *)
    let w1 := stepQ m (untouched s y_err) in
    (* steps 3 and 4: until within tol, or the cap is reached *)
    let w2 := projectQLoop m tol (pred (iterationCap m)) w1 (q (wState w1)) in
    (* step 5: the operator, formed at the coordinates kept, on y_err *)
    let s2 := wState w2 in
    let w3 := updYErr w2 (projectOut m (qWeights m)
                                     (qJacobian m (time s2) (q s2)) (wYErr w2)) in
    Ok (true, lowerStage w3 Position).

(** Modelled from the spec: [projectUConstraints], declared only.  The
    velocity case is linear in [u]: one correction, no loop. *)
Definition projectUConstraints (m : MatterSubsystem) (s : State)
    (y_err : Vector) (tol targetTol : R) : result (bool * Workspace) :=
  n0 <- calcUConstraintNorm s ;;
  if Rle_dec n0 targetTol then Ok (false, untouched s y_err)
  else
    let w1 := stepU m (untouched s y_err) in
    let s1 := wState w1 in
    let w2 := updYErr w1 (projectOut m (uWeights m)
                                     (uJacobian m (time s1) (q s1) (u s1)) (wYErr w1)) in
    Ok (true, lowerStage w2 Velocity).

(** The states the position loop visits: [k] corrections applied in turn. *)
Definition qIterate (m : MatterSubsystem) (s : State) (k : nat) : State :=
  Nat.iter k (fun s' => reevaluateAtQ m s' (correctedQ m s')) s.

(** The number of corrections made when no iterate ever reaches [tol]. *)
Definition maxCorrections (m : MatterSubsystem) : nat :=
  S (pred (iterationCap m)).

(** The position cache holds what the position hook reports at the
    state's own time and coordinates. *)
Definition positionConsistent (m : MatterSubsystem) (s : State) : Prop :=
  positionCache s = positionHook m (time s) (q s).

(* ================================================================== *)
(** * Fixtures                                                         *)
(* ================================================================== *)

(** A quarter turn about the z axis. *)
Definition quarterTurnZ : Rotation :=
  mkMat33 (mkVec3 0 (-1) 0) (mkVec3 1 0 0) (mkVec3 0 0 1).

Definition X_G1 : Transform := mkTransform quarterTurnZ (mkVec3 1 2 3).

Definition V_G1 : SpatialVec := mkSpatialVec (mkVec3 0 0 1) (mkVec3 1 0 0).

Definition groundMass : MassProperties :=
  mkMassProperties 0 zeroVec3 (mkMat33 zeroVec3 zeroVec3 zeroVec3).

Definition rodMass : MassProperties :=
  mkMassProperties 2 (mkVec3 0 1 0)
                   (mkMat33 (mkVec3 3 0 0) (mkVec3 0 1 0) (mkVec3 0 0 3)).

Definition rod : BodyId := 1%nat.

(** Ground and one body, realized through Velocity. *)
Definition movingState : State :=
  mkState Velocity 0 [0] [1] [0]
          (mkInstanceCache [groundMass; rodMass])
          (mkPositionCache [identityTransform; X_G1] [] [])
          (mkVelocityCache [zeroSpatialVec; V_G1] [] []).

(** The same state before positions were realized. *)
Definition instanceState : State := setStage movingState Instance.

(** A second body, placed elsewhere, that moves with the rod. *)
Definition trailer : BodyId := 2%nat.

Definition X_G2 : Transform := mkTransform identity33 (mkVec3 0 5 0).

Definition convoyState : State :=
  mkState Velocity 0 [0; 0] [1; 1] [0; 0]
          (mkInstanceCache [groundMass; rodMass; rodMass])
          (mkPositionCache [identityTransform; X_G1; X_G2] [] [])
          (mkVelocityCache [zeroSpatialVec; V_G1; V_G1] [] []).

(** *** A one-coordinate system with a cubic position constraint

    Ground and one body; the coordinate is [x], the position-level error is
    [x^3 - 2x + 2] and the velocity-level error is [v^2 + 1]. *)

Definition cubicPositionHook (t : R) (qv : Vector) : PositionCache :=
  let x := hd 0 qv in
  mkPositionCache [identityTransform; identityTransform]
                  [x * x * x - 2 * x + 2] [1].

Definition cubicVelocityHook (t : R) (qv uv : Vector) : VelocityCache :=
  let v := hd 0 uv in
  mkVelocityCache [zeroSpatialVec; zeroSpatialVec] [v * v + 1] [1].

(** Inverse of a 1x1 matrix. *)
Definition scalarInverse (A : Matrix) : Matrix := map (map Rinv) A.

Definition cubicSystem : MatterSubsystem :=
  mkMatterSubsystem
    [mkBody GroundId 0 0; mkBody GroundId 1 1] 0%nat
    (mkInstanceCache [groundMass; rodMass])
    cubicPositionHook cubicVelocityHook
    (fun _ qv => let x := hd 0 qv in [[3 * x * x - 2]])
    (fun _ _ uv => let v := hd 0 uv in [[2 * v]])
    [1] [1] scalarInverse 2%nat.

Definition blankState (x v : R) : State :=
  mkState Model 0 [x] [v] [0]
          (mkInstanceCache []) (mkPositionCache [] [] [])
          (mkVelocityCache [] [] []).

(** The cubic system at [x], speed [v], realized through Velocity. *)
Definition cubicState (x v : R) : State :=
  advanceTo cubicSystem (blankState x v) Velocity.


(* ================================================================== *)
(** * Facts of the spatial algebra                                     *)
(* ================================================================== *)

Ltac open_vectors :=
  repeat match goal with
         | v : Vec3 |- _ => destruct v
         | M : Mat33 |- _ => destruct M
         | M : Rotation |- _ => destruct M
         | X : Transform |- _ => destruct X
         | V : SpatialVec |- _ => destruct V
         end.

Ltac by_components :=
  open_vectors;
  cbv [mulMM mulMV transpose dot cross vadd vsub vneg col0 col1 col2
       row0 row1 row2 vx vy vz identity33 zeroVec3 getR getT
       compose invert applyTransform applyInverseTransform identityTransform];
  repeat match goal with
         | |- mkTransform _ _ = mkTransform _ _ => f_equal
         | |- mkMat33 _ _ _ = mkMat33 _ _ _ => f_equal
         | |- mkVec3 _ _ _ = mkVec3 _ _ _ => f_equal
         end;
  ring.

Lemma mulMV_mulMM (A B : Mat33) (v : Vec3) :
  mulMV (mulMM A B) v = mulMV A (mulMV B v).
Proof. by_components. Qed.

Lemma mulMV_identity (v : Vec3) : mulMV identity33 v = v.
Proof. by_components. Qed.

Lemma mulMM_assoc (A B C : Mat33) :
  mulMM (mulMM A B) C = mulMM A (mulMM B C).
Proof. by_components. Qed.

Lemma mulMM_identity_l (A : Mat33) : mulMM identity33 A = A.
Proof. by_components. Qed.

Lemma mulMM_identity_r (A : Mat33) : mulMM A identity33 = A.
Proof. by_components. Qed.

Lemma transpose_mulMM (A B : Mat33) :
  transpose (mulMM A B) = mulMM (transpose B) (transpose A).
Proof. by_components. Qed.

Lemma transpose_involutive (A : Mat33) : transpose (transpose A) = A.
Proof. by_components. Qed.

Lemma vadd_vsub_cancel (a b : Vec3) : vsub (vadd a b) b = a.
Proof. by_components. Qed.

Lemma vsub_self (a : Vec3) : vsub a a = zeroVec3.
Proof. by_components. Qed.

Lemma cross_zero_l (a : Vec3) : cross zeroVec3 a = zeroVec3.
Proof. by_components. Qed.

Lemma vadd_zero_l (a : Vec3) : vadd zeroVec3 a = a.
Proof. by_components. Qed.

Lemma mulMV_zero (A : Mat33) : mulMV A zeroVec3 = zeroVec3.
Proof. by_components. Qed.

Lemma mulMV_vneg (A : Mat33) (v : Vec3) : mulMV A (vneg v) = vneg (mulMV A v).
Proof. by_components. Qed.

Lemma vadd_vneg (a : Vec3) : vadd a (vneg a) = zeroVec3.
Proof. by_components. Qed.

Lemma vadd_vneg_l (a : Vec3) : vadd (vneg a) a = zeroVec3.
Proof. by_components. Qed.

Lemma orthonormal_transpose (M : Rotation) :
  orthonormal M -> orthonormal (transpose M).
Proof.
  intros [H1 H2]. split; rewrite transpose_involutive; assumption.
Qed.

Lemma orthonormal_mulMM (A B : Rotation) :
  orthonormal A -> orthonormal B -> orthonormal (mulMM A B).
Proof.
  intros [HA1 HA2] [HB1 HB2]. split; rewrite transpose_mulMM.
  - rewrite mulMM_assoc, <- (mulMM_assoc (transpose A) A B), HA1,
      mulMM_identity_l. exact HB1.
  - rewrite mulMM_assoc, <- (mulMM_assoc B (transpose B) (transpose A)), HB2,
      mulMM_identity_l. exact HA2.
Qed.

Lemma orthonormal_quarterTurnZ : orthonormal quarterTurnZ.
Proof. split; unfold quarterTurnZ; by_components. Qed.

(** Inverse after forward transform is the identity on stations. *)
Lemma applyInverse_apply (X : Transform) (p : Vec3) :
  orthonormal (getR X) ->
  applyInverseTransform X (applyTransform X p) = p.
Proof.
  intros [H _]. unfold applyInverseTransform, applyTransform.
  rewrite vadd_vsub_cancel, <- mulMV_mulMM, H. apply mulMV_identity.
Qed.

Lemma compose_invert_r (X : Transform) :
  orthonormal (getR X) -> compose X (invert X) = identityTransform.
Proof.
  intros [_ H]. unfold compose, invert, identityTransform; simpl.
  rewrite H, mulMV_vneg, <- mulMV_mulMM, H, mulMV_identity, vadd_vneg.
  reflexivity.
Qed.

Lemma compose_invert_l (X : Transform) :
  orthonormal (getR X) -> compose (invert X) X = identityTransform.
Proof.
  intros [H _]. unfold compose, invert, identityTransform; simpl.
  rewrite H, vadd_vneg_l. reflexivity.
Qed.

(** ** Stage-gated reads *)

Lemma requireStage_ok (s : State) (g : Stage) :
  stage_leb g (stage s) = true -> requireStage s g = Ok tt.
Proof. intros H. unfold requireStage. rewrite H. reflexivity. Qed.

Lemma requireStage_err (s : State) (g : Stage) :
  stage_leb g (stage s) = false ->
  requireStage s g = Err (StageViolation g (stage s)).
Proof. intros H. unfold requireStage. rewrite H. reflexivity. Qed.

Lemma stage_leb_trans (a b c : Stage) :
  stage_leb a b = true -> stage_leb b c = true -> stage_leb a c = true.
Proof.
  unfold stage_leb. rewrite !Nat.leb_le. lia.
Qed.

Lemma getBodyPosition_ok (s : State) (b : BodyId) (X : Transform) :
  stage_leb Position (stage s) = true ->
  nth_error (bodyTransform (positionCache s)) b = Some X ->
  getBodyPosition s b = Ok X.
Proof.
  intros Hs Hb. unfold getBodyPosition, lookupBody.
  rewrite (requireStage_ok _ _ Hs). simpl. rewrite Hb. reflexivity.
Qed.

Lemma getBodyVelocity_ok (s : State) (b : BodyId) (V : SpatialVec) :
  stage_leb Velocity (stage s) = true ->
  nth_error (bodyVelocity (velocityCache s)) b = Some V ->
  getBodyVelocity s b = Ok V.
Proof.
  intros Hs Hb. unfold getBodyVelocity, lookupBody.
  rewrite (requireStage_ok _ _ Hs). simpl. rewrite Hb. reflexivity.
Qed.

Lemma getBodyPosition_below (s : State) (b : BodyId) :
  stage_ltb (stage s) Position = true ->
  getBodyPosition s b = Err (StageViolation Position (stage s)).
Proof.
  intros H. unfold getBodyPosition.
  rewrite requireStage_err; [reflexivity|].
  unfold stage_ltb, stage_leb in *.
  apply Nat.ltb_lt in H. apply Nat.leb_gt. exact H.
Qed.

(* ================================================================== *)
(** * The inline queries                                               *)
(* ================================================================== *)

(** C5.  With the state realized at least to Position, re-expressing a
    station [p] of body [B] in [B]'s own frame through the cross-body query
    gives [p] back: [~X_GB * (X_GB * p) = p], exactly in real arithmetic and
    so within any tolerance. *)
Theorem calcStationLocationInBody_same_body
    (s : State) (B : BodyId) (p : Vec3) (X_GB : Transform)
    (Hstage : stage_leb Position (stage s) = true)
    (HB : nth_error (bodyTransform (positionCache s)) B = Some X_GB)
    (Horth : orthonormal (getR X_GB)) :
  calcStationLocationInBody s B p B = Ok p.
Proof.
  unfold calcStationLocationInBody, calcStationLocation.
  rewrite (getBodyPosition_ok s B X_GB Hstage HB). simpl.
  rewrite applyInverse_apply by assumption. reflexivity.
Qed.

Lemma calcStationLocationInBody_same_body_witness :
  calcStationLocationInBody movingState rod (mkVec3 4 5 6) rod = Ok (mkVec3 4 5 6).
Proof.
  apply (calcStationLocationInBody_same_body movingState rod (mkVec3 4 5 6) X_G1).
  - reflexivity.
  - reflexivity.
  - exact orthonormal_quarterTurnZ.
Defined.

(** C7.  With the state realized at least to Velocity, the velocity of a
    station [p] fixed on body [B] is [v_GB + w_GB x (R_GB * p)], built from
    the cached spatial velocity and the cached rotation of [B]. *)
Theorem calcStationVelocity_transport
    (s : State) (B : BodyId) (p : Vec3) (X_GB : Transform) (V_GB : SpatialVec)
    (Hstage : stage_leb Velocity (stage s) = true)
    (HX : nth_error (bodyTransform (positionCache s)) B = Some X_GB)
    (HV : nth_error (bodyVelocity (velocityCache s)) B = Some V_GB) :
  calcStationVelocity s B p
  = Ok (vadd (sv1 V_GB) (cross (sv0 V_GB) (mulMV (getR X_GB) p))).
Proof.
  assert (Hpos : stage_leb Position (stage s) = true)
    by (apply (stage_leb_trans Position Velocity); [reflexivity | assumption]).
  unfold calcStationVelocity, calcVectorOrientation, getBodyRotation.
  rewrite (getBodyVelocity_ok s B V_GB Hstage HV),
          (getBodyPosition_ok s B X_GB Hpos HX).
  reflexivity.
Qed.

Lemma calcStationVelocity_transport_witness :
  calcStationVelocity movingState rod (mkVec3 1 0 0)
  = Ok (vadd (sv1 V_G1) (cross (sv0 V_G1) (mulMV (getR X_G1) (mkVec3 1 0 0)))).
Proof.
  apply (calcStationVelocity_transport movingState rod (mkVec3 1 0 0) X_G1 V_G1);
    reflexivity.
Defined.

(** C10.  With the state realized at least to Velocity, the velocity of any
    station of body [B] relative to [B] itself is the zero vector: the
    relative spatial velocity [V_GB - V_GB] vanishes. *)
Theorem calcStationVelocityInBody_same_body
    (s : State) (B : BodyId) (p : Vec3) (X_GB : Transform) (V_GB : SpatialVec)
    (Hstage : stage_leb Velocity (stage s) = true)
    (HX : nth_error (bodyTransform (positionCache s)) B = Some X_GB)
    (HV : nth_error (bodyVelocity (velocityCache s)) B = Some V_GB) :
  calcStationVelocityInBody s B p B = Ok zeroVec3
  /\ svsub V_GB V_GB = zeroSpatialVec.
Proof.
  assert (Hpos : stage_leb Position (stage s) = true)
    by (apply (stage_leb_trans Position Velocity); [reflexivity | assumption]).
  assert (Hdiff : svsub V_GB V_GB = zeroSpatialVec)
    by (unfold svsub, zeroSpatialVec; rewrite !vsub_self; reflexivity).
  split; [| exact Hdiff].
  unfold calcStationVelocityInBody, calcStationLocation, getBodyLocation,
    getBodyRotation.
  rewrite (getBodyVelocity_ok s B V_GB Hstage HV),
          (getBodyPosition_ok s B X_GB Hpos HX).
  simpl. rewrite !vsub_self, cross_zero_l, vadd_zero_l, mulMV_zero.
  reflexivity.
Qed.

Lemma calcStationVelocityInBody_same_body_witness :
  calcStationVelocityInBody movingState rod (mkVec3 1 0 0) rod = Ok zeroVec3
  /\ svsub V_G1 V_G1 = zeroSpatialVec.
Proof.
  apply (calcStationVelocityInBody_same_body movingState rod (mkVec3 1 0 0) X_G1 V_G1);
    reflexivity.
Defined.

(** C6.  With the state realized at least to Position and the cached
    rotations orthonormal, the cross-body transform [X_BA] composed with its
    computed inverse is the identity transform, on either side (exactly in
    real arithmetic, so within any tolerance). *)
Theorem calcBodyTransformInBody_inverse
    (s : State) (A B : BodyId) (X_GA X_GB : Transform)
    (Hstage : stage_leb Position (stage s) = true)
    (HA : nth_error (bodyTransform (positionCache s)) A = Some X_GA)
    (HB : nth_error (bodyTransform (positionCache s)) B = Some X_GB)
    (HorthA : orthonormal (getR X_GA))
    (HorthB : orthonormal (getR X_GB)) :
  exists X_BA,
    calcBodyTransformInBody s A B = Ok X_BA
    /\ orthonormal (getR X_BA)
    /\ compose X_BA (invert X_BA) = identityTransform
    /\ compose (invert X_BA) X_BA = identityTransform.
Proof.
  exists (compose (invert X_GB) X_GA).
  assert (Horth : orthonormal (getR (compose (invert X_GB) X_GA))).
  { simpl. apply orthonormal_mulMM; [apply orthonormal_transpose|]; assumption. }
  repeat split.
  - unfold calcBodyTransformInBody.
    rewrite (getBodyPosition_ok s A X_GA Hstage HA),
            (getBodyPosition_ok s B X_GB Hstage HB).
    reflexivity.
  - apply Horth.
  - apply Horth.
  - apply compose_invert_r, Horth.
  - apply compose_invert_l, Horth.
Qed.

Lemma calcBodyTransformInBody_inverse_witness :
  exists X_BA,
    calcBodyTransformInBody movingState rod GroundId = Ok X_BA
    /\ orthonormal (getR X_BA)
    /\ compose X_BA (invert X_BA) = identityTransform
    /\ compose (invert X_BA) X_BA = identityTransform.
Proof.
  apply (calcBodyTransformInBody_inverse movingState rod GroundId
           X_G1 identityTransform).
  - reflexivity.
  - reflexivity.
  - reflexivity.
  - exact orthonormal_quarterTurnZ.
  - split; unfold identityTransform; simpl; by_components.
Defined.

Lemma resize_length {A : Type} (junk : A) (n : nat) (v : list A) :
  length (resize junk n v) = n.
Proof.
  unfold resize. rewrite length_app, length_firstn, repeat_length. lia.
Qed.

Lemma setToZero_repeat {A : Type} (zero : A) (v : list A) :
  setToZero zero v = repeat zero (length v).
Proof.
  induction v as [| x v IH]; simpl; [reflexivity | f_equal; exact IH].
Qed.

(** C8.  Whatever the arrays held and however long they were, [resetForces]
    leaves the body-force array with [getNBodies()] entries, the
    particle-force array with [getNParticles()] and the mobility-force array
    with [getNMobilities()], every entry zero.  The three sizes depend on the
    subsystem's topology alone. *)
Theorem resetForces_sized_and_zero
    (uninit : R) (m : MatterSubsystem)
    (bodyForces : list SpatialVec) (particleForces : list Vec3)
    (mobilityForces : Vector) :
  resetForces uninit m bodyForces particleForces mobilityForces
  = (repeat zeroSpatialVec (getNBodies m),
     repeat zeroVec3 (getNParticles m),
     repeat 0 (getNMobilities m))
  /\ getNBodies m = length (bodies m)
  /\ getNParticles m = nParticles m
  /\ getNMobilities m = list_sum (map nu (bodies m)).
Proof.
  split; [| repeat split].
  unfold resetForces.
  rewrite !setToZero_repeat, !resize_length. reflexivity.
Qed.

(** C9.  At any realized stage from Instance up, asking for the mass
    properties of body [A] expressed in [A] itself returns the stored mass
    properties unchanged; the answer does not depend on the position cache
    or on whether Position is realized.  Only when [inBodyB] differs from
    [objectBodyA] is [getBodyPosition] consulted: below Position that call
    is a stage violation. *)
Theorem calcBodyMassPropertiesInBody_same_body
    (s : State) (A : BodyId) (mp : MassProperties)
    (Hstage : stage_leb Instance (stage s) = true)
    (HA : nth_error (bodyMassProperties (instanceCache s)) A = Some mp) :
  calcBodyMassPropertiesInBody s A A = Ok mp
  /\ (forall (c : PositionCache) (g : Stage),
        stage_leb Instance g = true ->
        calcBodyMassPropertiesInBody (setStage (setPositionCache s c) g) A A
        = Ok mp)
  /\ (forall B : BodyId,
        B <> A ->
        stage_ltb (stage s) Position = true ->
        calcBodyMassPropertiesInBody s A B
        = Err (StageViolation Position (stage s))).
Proof.
  repeat split.
  - unfold calcBodyMassPropertiesInBody, getBodyMassProperties, lookupBody.
    rewrite (requireStage_ok _ _ Hstage). simpl.
    rewrite HA, Nat.eqb_refl. reflexivity.
  - intros c g Hg.
    unfold calcBodyMassPropertiesInBody, getBodyMassProperties, lookupBody.
    rewrite requireStage_ok by exact Hg. simpl.
    rewrite HA, Nat.eqb_refl. reflexivity.
  - intros B HBA Hlow.
    unfold calcBodyMassPropertiesInBody, getBodyMassProperties, lookupBody.
    rewrite (requireStage_ok _ _ Hstage). simpl.
    rewrite HA. simpl.
    apply Nat.eqb_neq in HBA. rewrite HBA.
    rewrite (getBodyPosition_below s A Hlow). reflexivity.
Qed.

Lemma calcBodyMassPropertiesInBody_same_body_witness :
  calcBodyMassPropertiesInBody instanceState rod rod = Ok rodMass
  /\ calcBodyMassPropertiesInBody instanceState rod GroundId
     = Err (StageViolation Position Instance).
Proof.
  destruct (calcBodyMassPropertiesInBody_same_body instanceState rod rodMass
              eq_refl eq_refl) as [Hsame [_ Hother]].
  split.
  - exact Hsame.
  - apply (Hother GroundId); [discriminate | reflexivity].
Defined.

(* ================================================================== *)
(** * StageLadder                                                      *)
(* ================================================================== *)

Lemma stage_ltb_not_leb (a b : Stage) :
  stage_ltb a b = true -> stage_leb b a = false.
Proof.
  unfold stage_ltb, stage_leb. intros H.
  apply Nat.ltb_lt in H. apply Nat.leb_gt. exact H.
Qed.

Lemma invalidate_below (s : State) (g : Stage) :
  g <> Topology -> stage_ltb (stage (invalidate s g)) g = true.
Proof.
  intros Hg. unfold invalidate, minStage. simpl.
  destruct (stage s), g; try reflexivity; contradiction.
Qed.

Lemma invalidate_keeps_variables (s : State) (g : Stage) :
  q (invalidate s g) = q s /\ u (invalidate s g) = u s
  /\ time (invalidate s g) = time s
  /\ positionCache (invalidate s g) = positionCache s.
Proof. repeat split. Qed.

(** An explicit [advanceTo] is what refills the position cache. *)
Lemma advanceTo_Position (m : MatterSubsystem) (s : State) :
  stage_ltb (stage s) Position = true ->
  stage (advanceTo m s Position) = Position
  /\ positionCache (advanceTo m s Position) = positionHook m (time s) (q s)
  /\ q (advanceTo m s Position) = q s.
Proof.
  destruct s as [g t qv uv ud ic pc vc]. simpl.
  destruct g; intros H; try discriminate H; repeat split.
Qed.

(** C2.  Writing a coordinate through [setMobilizerQ] leaves the realized
    stage strictly below Position; from then on every read of a
    Position-stage quantity is a stage violation naming Position and the
    actual stage, and the cache is refilled only by an explicit
    [advanceTo]. *)
Theorem setMobilizerQ_invalidates_position
    (m : MatterSubsystem) (s : State) (body : BodyId) (b : Body)
    (mobilityIndex : Z) (mobilityValue : R)
    (Hstage : stage_leb Model (stage s) = true)
    (Hbody : nth_error (bodies m) body = Some b)
    (Hindex : (0 <= mobilityIndex < Z.of_nat (nq b))%Z)
    (Hq : (qStart m body + Z.to_nat mobilityIndex < length (q s))%nat) :
  exists s',
    setMobilizerQ m s body mobilityIndex mobilityValue = Ok s'
    /\ q s' = replaceNth (qStart m body + Z.to_nat mobilityIndex)
                         mobilityValue (q s)
    /\ stage_ltb (stage s') Position = true
    /\ (forall B, getBodyPosition s' B
                  = Err (StageViolation Position (stage s')))
    /\ (forall B p, calcStationLocation s' B p
                    = Err (StageViolation Position (stage s')))
    /\ calcQConstraintNorm s' = Err (StageViolation Position (stage s'))
    /\ (forall B, getBodyPosition (advanceTo m s' Position) B
                  = lookupBody
                      (bodyTransform (positionHook m (time s') (q s'))) B).
Proof.
  set (k := (qStart m body + Z.to_nat mobilityIndex)%nat) in *.
  set (s' := invalidate (setQ s (replaceNth k mobilityValue (q s))) Position).
  assert (Hlow : stage_ltb (stage s') Position = true)
    by (apply invalidate_below; discriminate).
  exists s'. repeat split.
  - unfold setMobilizerQ, lookupBody.
    rewrite (requireStage_ok _ _ Hstage). simpl. rewrite Hbody. simpl.
    replace (0 <=? mobilityIndex)%Z with true
      by (symmetry; apply Z.leb_le; lia).
    replace (mobilityIndex <? Z.of_nat (nq b))%Z with true
      by (symmetry; apply Z.ltb_lt; lia).
    simpl. fold k.
    replace (k <? length (q s))%nat with true
      by (symmetry; apply Nat.ltb_lt; exact Hq).
    reflexivity.
  - exact Hlow.
  - intros B. apply getBodyPosition_below, Hlow.
  - intros B p. unfold calcStationLocation.
    rewrite (getBodyPosition_below s' B Hlow). reflexivity.
  - unfold calcQConstraintNorm.
    rewrite requireStage_err by (apply stage_ltb_not_leb, Hlow). reflexivity.
  - intros B.
    destruct (advanceTo_Position m s' Hlow) as [Hg [Hc _]].
    unfold getBodyPosition. rewrite requireStage_ok by (rewrite Hg; reflexivity).
    simpl. rewrite Hc. reflexivity.
Qed.

Lemma setMobilizerQ_invalidates_position_witness :
  exists s',
    setMobilizerQ cubicSystem (cubicState 0 1) rod 0%Z 5 = Ok s'
    /\ q s' = replaceNth (qStart cubicSystem rod + Z.to_nat 0) 5
                         (q (cubicState 0 1))
    /\ stage_ltb (stage s') Position = true
    /\ (forall B, getBodyPosition s' B
                  = Err (StageViolation Position (stage s')))
    /\ (forall B p, calcStationLocation s' B p
                    = Err (StageViolation Position (stage s')))
    /\ calcQConstraintNorm s' = Err (StageViolation Position (stage s'))
    /\ (forall B, getBodyPosition (advanceTo cubicSystem s' Position) B
                  = lookupBody
                      (bodyTransform
                         (positionHook cubicSystem (time s') (q s'))) B).
Proof.
  apply (setMobilizerQ_invalidates_position cubicSystem (cubicState 0 1) rod
           (mkBody GroundId 1 1) 0%Z 5).
  - reflexivity.
  - reflexivity.
  - simpl. lia.
  - simpl. lia.
Defined.

(* ================================================================== *)
(** * ConstraintProjector                                              *)
(* ================================================================== *)

Lemma calcQConstraintNorm_ok (s : State) :
  stage_leb Position (stage s) = true ->
  calcQConstraintNorm s = Ok (qNorm s).
Proof.
  intros H. unfold calcQConstraintNorm.
  rewrite (requireStage_ok _ _ H). reflexivity.
Qed.

Lemma calcUConstraintNorm_ok (s : State) :
  stage_leb Velocity (stage s) = true ->
  calcUConstraintNorm s = Ok (uNorm s).
Proof.
  intros H. unfold calcUConstraintNorm.
  rewrite (requireStage_ok _ _ H). reflexivity.
Qed.

Lemma projectQConstraints_early (m : MatterSubsystem) (s : State)
    (y_err : Vector) (tol targetTol : R) :
  stage_leb Position (stage s) = true ->
  qNorm s <= targetTol ->
  projectQConstraints m s y_err tol targetTol = Ok (false, untouched s y_err).
Proof.
  intros Hs Hn. unfold projectQConstraints.
  rewrite (calcQConstraintNorm_ok s Hs). simpl.
  destruct (Rle_dec (qNorm s) targetTol); [reflexivity | contradiction].
Qed.

Lemma projectQConstraints_late (m : MatterSubsystem) (s : State)
    (y_err : Vector) (tol targetTol : R) :
  stage_leb Position (stage s) = true ->
  targetTol < qNorm s ->
  projectQConstraints m s y_err tol targetTol
  = Ok (true,
        let w2 := projectQLoop m tol (pred (iterationCap m))
                    (stepQ m (untouched s y_err))
                    (q (wState (stepQ m (untouched s y_err)))) in
        lowerStage
          (updYErr w2 (projectOut m (qWeights m)
                         (qJacobian m (time (wState w2)) (q (wState w2)))
                         (wYErr w2)))
          Position).
Proof.
  intros Hs Hn. unfold projectQConstraints.
  rewrite (calcQConstraintNorm_ok s Hs). simpl.
  destruct (Rle_dec (qNorm s) targetTol); [lra | reflexivity].
Qed.

Lemma projectUConstraints_early (m : MatterSubsystem) (s : State)
    (y_err : Vector) (tol targetTol : R) :
  stage_leb Velocity (stage s) = true ->
  uNorm s <= targetTol ->
  projectUConstraints m s y_err tol targetTol = Ok (false, untouched s y_err).
Proof.
  intros Hs Hn. unfold projectUConstraints.
  rewrite (calcUConstraintNorm_ok s Hs). simpl.
  destruct (Rle_dec (uNorm s) targetTol); [reflexivity | contradiction].
Qed.

Lemma projectUConstraints_late (m : MatterSubsystem) (s : State)
    (y_err : Vector) (tol targetTol : R) :
  stage_leb Velocity (stage s) = true ->
  targetTol < uNorm s ->
  projectUConstraints m s y_err tol targetTol
  = Ok (true,
        let w1 := stepU m (untouched s y_err) in
        lowerStage
          (updYErr w1 (projectOut m (uWeights m)
                         (uJacobian m (time (wState w1)) (q (wState w1))
                                    (u (wState w1)))
                         (wYErr w1)))
          Velocity).
Proof.
  intros Hs Hn. unfold projectUConstraints.
  rewrite (calcUConstraintNorm_ok s Hs). simpl.
  destruct (Rle_dec (uNorm s) targetTol); [lra | reflexivity].
Qed.

Lemma projectQLoop_unfold (m : MatterSubsystem) (tol : R) (fuel : nat)
    (w : Workspace) (best : Vector) :
  projectQLoop m tol fuel w best
  = if Rle_dec (qNorm (wState w)) tol then w
    else match fuel with
         | O => updQ m w (betterQ m (time (wState w)) best (q (wState w)))
         | S fuel' =>
             projectQLoop m tol fuel' (stepQ m w)
               (betterQ m (time (wState w)) best (q (wState w)))
         end.
Proof. destruct fuel; reflexivity. Qed.

(** ** The position loop *)

Lemma qIterate_S (m : MatterSubsystem) (s : State) (k : nat) :
  qIterate m s (S k)
  = reevaluateAtQ m (qIterate m s k) (correctedQ m (qIterate m s k)).
Proof. reflexivity. Qed.

Lemma qIterate_time (m : MatterSubsystem) (s : State) (k : nat) :
  time (qIterate m s k) = time s.
Proof.
  induction k as [| k IH]; [reflexivity |].
  rewrite qIterate_S. simpl. exact IH.
Qed.

Lemma qIterate_norm (m : MatterSubsystem) (s : State) (k : nat) :
  (1 <= k)%nat ->
  qNorm (qIterate m s k) = qNormAt m (time s) (q (qIterate m s k)).
Proof.
  destruct k as [| k]; [lia |]. intros _.
  rewrite qIterate_S. unfold qNorm, qNormAt. simpl.
  rewrite qIterate_time. reflexivity.
Qed.


Lemma stepQ_iterate (m : MatterSubsystem) (s : State) (w : Workspace) (k : nat) :
  wState w = qIterate m s k ->
  wState (stepQ m w) = qIterate m s (S k).
Proof.
  intros H. unfold stepQ, updQ. simpl. rewrite H. reflexivity.
Qed.

Lemma betterQ_least (m : MatterSubsystem) (s : State) (w : Workspace)
    (best : Vector) (k kb : nat) :
  wState w = qIterate m s k ->
  (1 <= kb <= k)%nat ->
  best = q (qIterate m s kb) ->
  (forall j, (1 <= j < k)%nat ->
             qNorm (qIterate m s kb) <= qNorm (qIterate m s j)) ->
  exists kb',
    (1 <= kb' <= k)%nat
    /\ betterQ m (time (wState w)) best (q (wState w)) = q (qIterate m s kb')
    /\ (forall j, (1 <= j < S k)%nat ->
                  qNorm (qIterate m s kb') <= qNorm (qIterate m s j)).
Proof.
  intros Hw Hkb Hbest Hmin. subst best.
  rewrite Hw, qIterate_time. unfold betterQ.
  rewrite <- !qIterate_norm by lia.
  destruct (Rle_dec (qNorm (qIterate m s kb)) (qNorm (qIterate m s k)))
    as [Hle | Hgt].
  - exists kb. repeat split; try lia.
    intros j Hj. destruct (Nat.eq_dec j k) as [-> | Hne].
    + exact Hle.
    + apply Hmin. lia.
  - exists k. repeat split; try lia.
    intros j Hj. destruct (Nat.eq_dec j k) as [-> | Hne].
    + apply Rle_refl.
    + assert (Hj' : (1 <= j < k)%nat) by lia.
      specialize (Hmin j Hj'). lra.
Qed.

(** When no iterate reaches [tol], the loop runs out of fuel and hands back
    the iterate with the least residual. *)
Lemma projectQLoop_exhausted (m : MatterSubsystem) (s : State) (tol : R) :
  forall (fuel : nat) (w : Workspace) (best : Vector) (k kb : nat),
    wState w = qIterate m s k ->
    (1 <= kb <= k)%nat ->
    best = q (qIterate m s kb) ->
    (forall j, (1 <= j < k)%nat ->
               qNorm (qIterate m s kb) <= qNorm (qIterate m s j)) ->
    (forall j, (1 <= j <= k + fuel)%nat -> tol < qNorm (qIterate m s j)) ->
    exists kr,
      (1 <= kr <= k + fuel)%nat
      /\ q (wState (projectQLoop m tol fuel w best)) = q (qIterate m s kr)
      /\ qNorm (wState (projectQLoop m tol fuel w best))
         = qNorm (qIterate m s kr)
      /\ (forall j, (1 <= j <= k + fuel)%nat ->
                    qNorm (qIterate m s kr) <= qNorm (qIterate m s j))
      /\ stage (wState (projectQLoop m tol fuel w best)) = Position.
Proof.
  induction fuel as [| fuel IH]; intros w best k kb Hw Hkb Hbest Hmin Hall;
    rewrite projectQLoop_unfold;
    (destruct (Rle_dec (qNorm (wState w)) tol) as [Hle | _];
     [ exfalso; rewrite Hw in Hle;
       specialize (Hall k ltac:(lia)); lra | ]);
    destruct (betterQ_least m s w best k kb Hw Hkb Hbest Hmin)
      as [kb' [Hkb' [Hbest' Hmin']]].
  - (* the cap is reached: the best iterate is stored *)
    exists kb'. rewrite Hbest'. repeat split; try lia.
    + unfold qNorm. simpl. rewrite Hw, qIterate_time.
      symmetry. apply qIterate_norm. lia.
    + intros j Hj. apply Hmin'. lia.
  - (* one more correction *)
    rewrite Hbest'.
    destruct (IH (stepQ m w) (q (qIterate m s kb')) (S k) kb') as [kr Hkr].
    + apply stepQ_iterate, Hw.
    + lia.
    + reflexivity.
    + exact Hmin'.
    + intros j Hj. apply Hall. lia.
    + exists kr. replace (k + S fuel)%nat with (S k + fuel)%nat by lia.
      exact Hkr.
Qed.

(** C3.  A projection call on a realized state always returns; it never
    raises.  If the position projector uses up its iteration cap and no
    iterate has a weighted error within [tol], the call still returns
    (true), the State holds the iterate with the least residual, and the
    failure shows only in the post-call residual, which is above [tol].
    Likewise for the single correction of the velocity projector. *)
Theorem projection_nonconvergence_is_not_an_error
    (m : MatterSubsystem) (s : State) (y_err : Vector) (tol targetTol : R) :
  (stage_leb Position (stage s) = true ->
     exists (b : bool) (w : Workspace),
       projectQConstraints m s y_err tol targetTol = Ok (b, w)
       /\ (targetTol < qNorm s ->
           (forall j, (1 <= j <= maxCorrections m)%nat ->
                      tol < qNorm (qIterate m s j)) ->
           b = true
           /\ calcQConstraintNorm (wState w) = Ok (qNorm (wState w))
           /\ tol < qNorm (wState w)
           /\ exists k,
                (1 <= k <= maxCorrections m)%nat
                /\ q (wState w) = q (qIterate m s k)
                /\ qNorm (wState w) = qNorm (qIterate m s k)
                /\ (forall j, (1 <= j <= maxCorrections m)%nat ->
                              qNorm (wState w) <= qNorm (qIterate m s j))))
  /\
  (stage_leb Velocity (stage s) = true ->
     exists (b : bool) (w : Workspace),
       projectUConstraints m s y_err tol targetTol = Ok (b, w)
       /\ (targetTol < uNorm s ->
           tol < uNorm (reevaluateAtU m s (correctedU m s)) ->
           b = true
           /\ u (wState w) = correctedU m s
           /\ calcUConstraintNorm (wState w) = Ok (uNorm (wState w))
           /\ tol < uNorm (wState w))).
Proof.
  split; intros Hs.
  - destruct (Rle_lt_dec (qNorm s) targetTol) as [Hn | Hn].
    + exists false, (untouched s y_err). split.
      * apply projectQConstraints_early; assumption.
      * intros Hgt. lra.
    + rewrite (projectQConstraints_late m s y_err tol targetTol Hs Hn).
      cbv zeta.
      set (w1 := stepQ m (untouched s y_err)).
      set (w2 := projectQLoop m tol (pred (iterationCap m)) w1 (q (wState w1))).
      eexists true, _. split; [reflexivity |].
      intros _ Hall.
      destruct (projectQLoop_exhausted m s tol (pred (iterationCap m)) w1
                  (q (wState w1)) 1 1) as [kr [Hkr [Hq [Hnorm [Hmin Hstage]]]]].
      * reflexivity.
      * lia.
      * reflexivity.
      * intros j Hj. lia.
      * exact Hall.
      * fold w2 in Hq, Hnorm, Hstage.
        assert (Hfinal : qNorm (wState w2) = qNorm (qIterate m s kr))
          by exact Hnorm.
        split; [reflexivity |]. split; [| split].
        -- apply calcQConstraintNorm_ok. simpl.
           rewrite Hstage. reflexivity.
        -- simpl wState. unfold qNorm in *. simpl.
           rewrite Hfinal. apply Hall. exact Hkr.
        -- exists kr. split; [exact Hkr |]. split; [exact Hq |].
           split; [exact Hnorm |].
           intros j Hj. unfold qNorm in *. simpl. rewrite Hfinal.
           apply Hmin. exact Hj.
  - destruct (Rle_lt_dec (uNorm s) targetTol) as [Hn | Hn].
    + exists false, (untouched s y_err). split.
      * apply projectUConstraints_early; assumption.
      * intros Hgt. lra.
    + rewrite (projectUConstraints_late m s y_err tol targetTol Hs Hn).
      cbv zeta. eexists true, _. split; [reflexivity |].
      intros _ Hfar. split; [reflexivity |]. split; [reflexivity |].
      split.
      * apply calcUConstraintNorm_ok. reflexivity.
      * exact Hfar.
Qed.

(** ** Consistency of the position cache along a projection *)

Lemma reevaluateAtQ_consistent (m : MatterSubsystem) (s : State) (q' : Vector) :
  positionConsistent m (reevaluateAtQ m s q').
Proof. reflexivity. Qed.

Lemma qNorm_consistent (m : MatterSubsystem) (s : State) :
  positionConsistent m s -> qNorm s = qNormAt m (time s) (q s).
Proof. intros H. unfold qNorm, qNormAt. rewrite H. reflexivity. Qed.

(** ** What a projection stores *)






(* ================================================================== *)
(** * The projector on the fixtures                                    *)
(* ================================================================== *)

Lemma weightedNorm_single (e : R) : weightedNorm [1] [e] = Rabs e.
Proof.
  unfold weightedNorm, dotV. simpl.
  replace (e * (1 * e) + 0) with (Rsqr e) by (unfold Rsqr; ring).
  apply sqrt_Rsqr_abs.
Qed.

Lemma cubic_qNorm (s : State) (x : R) :
  positionConsistent cubicSystem s -> q s = [x] ->
  qNorm s = Rabs (x * x * x - 2 * x + 2).
Proof.
  intros Hc Hq. rewrite (qNorm_consistent cubicSystem s Hc), Hq.
  unfold qNormAt. simpl. apply weightedNorm_single.
Qed.

Lemma cubic_correctedQ (s : State) (x : R) :
  positionConsistent cubicSystem s -> q s = [x] ->
  3 * x * x - 2 <> 0 ->
  correctedQ cubicSystem s = [x - (x * x * x - 2 * x + 2) / (3 * x * x - 2)].
Proof.
  intros Hc Hq Hx. unfold correctedQ. rewrite Hc, Hq. cbn.
  f_equal. field. exact Hx.
Qed.

Lemma cubicState_consistent x v : positionConsistent cubicSystem (cubicState x v).
Proof. reflexivity. Qed.

Lemma cubic_from_0 (s : State) :
  positionConsistent cubicSystem s -> q s = [0] ->
  q (qIterate cubicSystem s 1) = [1] /\ qNorm s = 2 /\ qNorm (qIterate cubicSystem s 1) = 1.
Proof.
  intros Hc Hq.
  assert (H1 : q (qIterate cubicSystem s 1) = [1]).
  { change (correctedQ cubicSystem s = [1]).
    rewrite (cubic_correctedQ s 0 Hc Hq) by lra. f_equal. field. }
  split; [exact H1|]. split.
  - rewrite (cubic_qNorm s 0 Hc Hq). rewrite Rabs_right; lra.
  - rewrite (cubic_qNorm (qIterate cubicSystem s 1) 1 (reevaluateAtQ_consistent _ _ _) H1). rewrite Rabs_right; lra.
Qed.

Lemma cubic_from_1 (s : State) :
  positionConsistent cubicSystem s -> q s = [1] ->
  q (qIterate cubicSystem s 1) = [0] /\ qNorm s = 1 /\ qNorm (qIterate cubicSystem s 1) = 2.
Proof.
  intros Hc Hq.
  assert (H1 : q (qIterate cubicSystem s 1) = [0]).
  { change (correctedQ cubicSystem s = [0]).
    rewrite (cubic_correctedQ s 1 Hc Hq) by lra. f_equal. field. }
  split; [exact H1|]. split.
  - rewrite (cubic_qNorm s 1 Hc Hq). rewrite Rabs_right; lra.
  - rewrite (cubic_qNorm (qIterate cubicSystem s 1) 0 (reevaluateAtQ_consistent _ _ _) H1). rewrite Rabs_right; lra.
Qed.

Lemma cubic_uNorm_start : uNorm (cubicState 0 1) = 2.
Proof.
  unfold uNorm. simpl. rewrite weightedNorm_single.
  rewrite Rabs_right; lra.
Qed.

Lemma cubic_correctedU_start : correctedU cubicSystem (cubicState 0 1) = [0].
Proof. unfold correctedU. cbn. f_equal. field. Qed.

Lemma cubic_uNorm_corrected :
  uNorm (reevaluateAtU cubicSystem (cubicState 0 1)
           (correctedU cubicSystem (cubicState 0 1))) = 1.
Proof.
  rewrite cubic_correctedU_start. unfold uNorm. simpl.
  rewrite weightedNorm_single. rewrite Rabs_right; lra.
Qed.

Lemma cubic_never_within_half (j : nat) :
  (1 <= j <= maxCorrections cubicSystem)%nat ->
  1 / 2 < qNorm (qIterate cubicSystem (cubicState 0 1) j).
Proof.
  change (maxCorrections cubicSystem) with 2%nat. intros Hj.
  destruct (cubic_from_0 (cubicState 0 1) (cubicState_consistent 0 1) eq_refl)
    as [Hq1 [_ Hn1]].
  destruct (cubic_from_1 (qIterate cubicSystem (cubicState 0 1) 1)
              (reevaluateAtQ_consistent _ _ _) Hq1) as [_ [_ Hn2]].
  assert (Hcases : j = 1%nat \/ j = 2%nat) by lia.
  destruct Hcases as [-> | ->].
  - rewrite Hn1. lra.
  - change (qIterate cubicSystem (cubicState 0 1) 2)
      with (qIterate cubicSystem (qIterate cubicSystem (cubicState 0 1) 1) 1).
    rewrite Hn2. lra.
Qed.

Lemma projection_nonconvergence_is_not_an_error_witness :
  (exists (b : bool) (w : Workspace),
     projectQConstraints cubicSystem (cubicState 0 1) [0] (1 / 2) (1 / 4) = Ok (b, w)
     /\ b = true
     /\ calcQConstraintNorm (wState w) = Ok (qNorm (wState w))
     /\ 1 / 2 < qNorm (wState w))
  /\
  (exists (b : bool) (w : Workspace),
     projectUConstraints cubicSystem (cubicState 0 1) [0] (1 / 2) (1 / 4) = Ok (b, w)
     /\ b = true
     /\ calcUConstraintNorm (wState w) = Ok (uNorm (wState w))
     /\ 1 / 2 < uNorm (wState w)).
Proof.
  destruct (projection_nonconvergence_is_not_an_error
              cubicSystem (cubicState 0 1) [0] (1 / 2) (1 / 4)) as [HQ HU].
  split.
  - destruct (HQ eq_refl) as [b [w [Hcall Hcap]]].
    destruct Hcap as [Hb [Hread [Hfar _]]].
    + destruct (cubic_from_0 (cubicState 0 1) (cubicState_consistent 0 1) eq_refl)
        as [_ [Hn0 _]].
      rewrite Hn0. lra.
    + exact cubic_never_within_half.
    + exists b, w. repeat split; assumption.
  - destruct (HU eq_refl) as [b [w [Hcall Hone]]].
    destruct Hone as [Hb [_ [Hread Hfar]]].
    + rewrite cubic_uNorm_start. lra.
    + rewrite cubic_uNorm_corrected. lra.
    + exists b, w. repeat split; assumption.
Defined.





(* ================================================================== *)
(** * Further properties of the inline operators                       *)
(* ================================================================== *)

Lemma apply_applyInverse (X : Transform) (p : Vec3) :
  orthonormal (getR X) ->
  applyTransform X (applyInverseTransform X p) = p.
Proof.
  intros [_ H]. unfold applyInverseTransform, applyTransform.
  rewrite <- mulMV_mulMM, H, mulMV_identity. by_components.
Qed.

Lemma mulMV_vsub (A : Mat33) (a b : Vec3) :
  mulMV A (vsub a b) = vsub (mulMV A a) (mulMV A b).
Proof. by_components. Qed.

Lemma dot_mulMV (A : Mat33) (a b : Vec3) :
  dot (mulMV A a) b = dot a (mulMV (transpose A) b).
Proof. by_components. Qed.

Lemma applyInverse_identity (p : Vec3) :
  applyInverseTransform identityTransform p = p.
Proof. by_components. Qed.

Lemma applyTransform_vsub (X : Transform) (a b : Vec3) :
  vsub (applyTransform X a) (applyTransform X b) = mulMV (getR X) (vsub a b).
Proof. by_components. Qed.

Lemma applyInverse_vsub (X : Transform) (a b : Vec3) :
  vsub (applyInverseTransform X a) (applyInverseTransform X b)
  = mulMV (transpose (getR X)) (vsub a b).
Proof. by_components. Qed.

Lemma cross_perpendicular (w r : Vec3) : dot (cross w r) r = 0.
Proof. open_vectors. cbv [dot cross vx vy vz]. ring. Qed.

Lemma stage_Velocity_Position (s : State) :
  stage_leb Velocity (stage s) = true -> stage_leb Position (stage s) = true.
Proof.
  intros H. apply (stage_leb_trans Position Velocity); [reflexivity | exact H].
Qed.

Lemma getBodyVelocity_below (s : State) (b : BodyId) :
  stage_ltb (stage s) Velocity = true ->
  getBodyVelocity s b = Err (StageViolation Velocity (stage s)).
Proof.
  intros H. unfold getBodyVelocity.
  rewrite requireStage_err by (apply stage_ltb_not_leb, H). reflexivity.
Qed.

(** X1.  Re-expressing a station of body [A] in body [B] and the result
    in body [C] is the same as re-expressing it in [C] directly. *)
Theorem calcStationLocationInBody_chain
    (s : State) (A B C : BodyId) (p : Vec3) (X_GA X_GB : Transform)
    (Hstage : stage_leb Position (stage s) = true)
    (HA : nth_error (bodyTransform (positionCache s)) A = Some X_GA)
    (HB : nth_error (bodyTransform (positionCache s)) B = Some X_GB)
    (HorthB : orthonormal (getR X_GB)) :
  exists p_B,
    calcStationLocationInBody s A p B = Ok p_B
    /\ calcStationLocationInBody s B p_B C = calcStationLocationInBody s A p C.
Proof.
  exists (applyInverseTransform X_GB (applyTransform X_GA p)).
  unfold calcStationLocationInBody, calcStationLocation.
  rewrite (getBodyPosition_ok s A X_GA Hstage HA),
          (getBodyPosition_ok s B X_GB Hstage HB).
  split; [reflexivity |].
  destruct (getBodyPosition s C) as [X_GC | e]; [| reflexivity].
  simpl. rewrite apply_applyInverse by exact HorthB. reflexivity.
Qed.

Lemma calcStationLocationInBody_chain_witness :
  exists p_B,
    calcStationLocationInBody convoyState rod (mkVec3 4 5 6) trailer = Ok p_B
    /\ calcStationLocationInBody convoyState trailer p_B GroundId
       = calcStationLocationInBody convoyState rod (mkVec3 4 5 6) GroundId.
Proof.
  apply (calcStationLocationInBody_chain convoyState rod trailer GroundId
           (mkVec3 4 5 6) X_G1 X_G2).
  - reflexivity.
  - reflexivity.
  - reflexivity.
  - split; unfold X_G2; simpl; by_components.
Defined.

(** X2.  A station of body [A] re-expressed in body [B] and back in [A]
    is the station we started from. *)
Theorem calcStationLocationInBody_round_trip
    (s : State) (A B : BodyId) (p : Vec3) (X_GA X_GB : Transform)
    (Hstage : stage_leb Position (stage s) = true)
    (HA : nth_error (bodyTransform (positionCache s)) A = Some X_GA)
    (HB : nth_error (bodyTransform (positionCache s)) B = Some X_GB)
    (HorthA : orthonormal (getR X_GA))
    (HorthB : orthonormal (getR X_GB)) :
  exists p_B,
    calcStationLocationInBody s A p B = Ok p_B
    /\ calcStationLocationInBody s B p_B A = Ok p.
Proof.
  exists (applyInverseTransform X_GB (applyTransform X_GA p)).
  unfold calcStationLocationInBody, calcStationLocation.
  rewrite (getBodyPosition_ok s A X_GA Hstage HA),
          (getBodyPosition_ok s B X_GB Hstage HB).
  split; [reflexivity |]. simpl.
  rewrite apply_applyInverse by exact HorthB.
  rewrite applyInverse_apply by exact HorthA. reflexivity.
Qed.

Lemma calcStationLocationInBody_round_trip_witness :
  exists p_B,
    calcStationLocationInBody convoyState rod (mkVec3 4 5 6) trailer = Ok p_B
    /\ calcStationLocationInBody convoyState trailer p_B rod
       = Ok (mkVec3 4 5 6).
Proof.
  apply (calcStationLocationInBody_round_trip convoyState rod trailer
           (mkVec3 4 5 6) X_G1 X_G2).
  - reflexivity.
  - reflexivity.
  - reflexivity.
  - exact orthonormal_quarterTurnZ.
  - split; unfold X_G2; simpl; by_components.
Defined.

(** X3.  When the cached transform of body [A] is the identity (as for
    Ground), re-expressing a station in [A] is the same as locating it in
    Ground with [calcStationLocation]. *)
Theorem calcStationLocationInBody_identity_frame
    (s : State) (A B : BodyId) (p : Vec3)
    (Hstage : stage_leb Position (stage s) = true)
    (HA : nth_error (bodyTransform (positionCache s)) A = Some identityTransform) :
  calcStationLocationInBody s B p A = calcStationLocation s B p.
Proof.
  unfold calcStationLocationInBody.
  rewrite (getBodyPosition_ok s A identityTransform Hstage HA). simpl.
  destruct (calcStationLocation s B p) as [g | e]; [| reflexivity].
  simpl. rewrite applyInverse_identity. reflexivity.
Qed.

Lemma calcStationLocationInBody_identity_frame_witness :
  calcStationLocationInBody convoyState rod (mkVec3 4 5 6) GroundId
  = calcStationLocation convoyState rod (mkVec3 4 5 6).
Proof.
  apply (calcStationLocationInBody_identity_frame convoyState GroundId rod
           (mkVec3 4 5 6)); reflexivity.
Defined.

(** X4.  The difference of two stations of body [B], both re-expressed in
    body [A], is their difference re-expressed as a vector: the
    translations cancel. *)
Theorem calcStationLocationInBody_difference
    (s : State) (A B : BodyId) (p1 p2 : Vec3) (X_GA X_GB : Transform)
    (Hstage : stage_leb Position (stage s) = true)
    (HA : nth_error (bodyTransform (positionCache s)) A = Some X_GA)
    (HB : nth_error (bodyTransform (positionCache s)) B = Some X_GB) :
  exists a1 a2,
    calcStationLocationInBody s B p1 A = Ok a1
    /\ calcStationLocationInBody s B p2 A = Ok a2
    /\ calcVectorOrientationInBody s B (vsub p1 p2) A = Ok (vsub a1 a2).
Proof.
  exists (applyInverseTransform X_GA (applyTransform X_GB p1)),
         (applyInverseTransform X_GA (applyTransform X_GB p2)).
  unfold calcStationLocationInBody, calcStationLocation,
    calcVectorOrientationInBody, calcVectorOrientation, getBodyRotation.
  rewrite (getBodyPosition_ok s A X_GA Hstage HA),
          (getBodyPosition_ok s B X_GB Hstage HB).
  repeat split. simpl.
  rewrite applyInverse_vsub, applyTransform_vsub. reflexivity.
Qed.

Lemma calcStationLocationInBody_difference_witness :
  exists a1 a2,
    calcStationLocationInBody convoyState rod (mkVec3 4 5 6) trailer = Ok a1
    /\ calcStationLocationInBody convoyState rod (mkVec3 1 0 2) trailer = Ok a2
    /\ calcVectorOrientationInBody convoyState rod
         (vsub (mkVec3 4 5 6) (mkVec3 1 0 2)) trailer = Ok (vsub a1 a2).
Proof.
  apply (calcStationLocationInBody_difference convoyState trailer rod
           (mkVec3 4 5 6) (mkVec3 1 0 2) X_G2 X_G1); reflexivity.
Defined.

(** X5.  Re-expressing a vector from body [A] in body [B] and the result in
    body [C] is the same as re-expressing it in [C] directly. *)
Theorem calcVectorOrientationInBody_chain
    (s : State) (A B C : BodyId) (v : Vec3) (X_GA X_GB : Transform)
    (Hstage : stage_leb Position (stage s) = true)
    (HA : nth_error (bodyTransform (positionCache s)) A = Some X_GA)
    (HB : nth_error (bodyTransform (positionCache s)) B = Some X_GB)
    (HorthB : orthonormal (getR X_GB)) :
  exists v_B,
    calcVectorOrientationInBody s A v B = Ok v_B
    /\ calcVectorOrientationInBody s B v_B C
       = calcVectorOrientationInBody s A v C.
Proof.
  exists (mulMV (transpose (getR X_GB)) (mulMV (getR X_GA) v)).
  unfold calcVectorOrientationInBody, calcVectorOrientation, getBodyRotation.
  rewrite (getBodyPosition_ok s A X_GA Hstage HA),
          (getBodyPosition_ok s B X_GB Hstage HB).
  split; [reflexivity |].
  destruct (getBodyPosition s C) as [X_GC | e]; [| reflexivity].
  simpl. destruct HorthB as [_ H].
  rewrite <- (mulMV_mulMM (getR X_GB)), H, mulMV_identity. reflexivity.
Qed.

Lemma calcVectorOrientationInBody_chain_witness :
  exists v_B,
    calcVectorOrientationInBody convoyState trailer (mkVec3 1 2 3) rod = Ok v_B
    /\ calcVectorOrientationInBody convoyState rod v_B GroundId
       = calcVectorOrientationInBody convoyState trailer (mkVec3 1 2 3) GroundId.
Proof.
  apply (calcVectorOrientationInBody_chain convoyState trailer rod GroundId
           (mkVec3 1 2 3) X_G2 X_G1).
  - reflexivity.
  - reflexivity.
  - reflexivity.
  - exact orthonormal_quarterTurnZ.
Defined.

(** X6.  Re-expressing two vectors of body [B] in body [A] keeps their dot
    product, hence lengths and angles. *)
Theorem calcVectorOrientationInBody_keeps_dot
    (s : State) (A B : BodyId) (v w : Vec3) (X_GA X_GB : Transform)
    (Hstage : stage_leb Position (stage s) = true)
    (HA : nth_error (bodyTransform (positionCache s)) A = Some X_GA)
    (HB : nth_error (bodyTransform (positionCache s)) B = Some X_GB)
    (HorthA : orthonormal (getR X_GA))
    (HorthB : orthonormal (getR X_GB)) :
  exists v_A w_A,
    calcVectorOrientationInBody s B v A = Ok v_A
    /\ calcVectorOrientationInBody s B w A = Ok w_A
    /\ dot v_A w_A = dot v w.
Proof.
  exists (mulMV (transpose (getR X_GA)) (mulMV (getR X_GB) v)),
         (mulMV (transpose (getR X_GA)) (mulMV (getR X_GB) w)).
  unfold calcVectorOrientationInBody, calcVectorOrientation, getBodyRotation.
  rewrite (getBodyPosition_ok s A X_GA Hstage HA),
          (getBodyPosition_ok s B X_GB Hstage HB).
  repeat split.
  destruct HorthA as [_ HA2]. destruct HorthB as [HB1 _].
  rewrite dot_mulMV, transpose_involutive.
  rewrite <- (mulMV_mulMM (getR X_GA)), HA2, mulMV_identity.
  rewrite dot_mulMV, <- mulMV_mulMM, HB1, mulMV_identity. reflexivity.
Qed.

Lemma calcVectorOrientationInBody_keeps_dot_witness :
  exists v_A w_A,
    calcVectorOrientationInBody convoyState rod (mkVec3 1 2 3) trailer = Ok v_A
    /\ calcVectorOrientationInBody convoyState rod (mkVec3 0 1 4) trailer = Ok w_A
    /\ dot v_A w_A = dot (mkVec3 1 2 3) (mkVec3 0 1 4).
Proof.
  apply (calcVectorOrientationInBody_keeps_dot convoyState trailer rod
           (mkVec3 1 2 3) (mkVec3 0 1 4) X_G2 X_G1).
  - reflexivity.
  - reflexivity.
  - reflexivity.
  - split; unfold X_G2; simpl; by_components.
  - exact orthonormal_quarterTurnZ.
Defined.

(** X7.  Two stations fixed on the same body keep their distance: the
    difference of their Ground velocities is perpendicular to the line
    joining their Ground locations. *)
Theorem calcStationVelocity_rigid
    (s : State) (B : BodyId) (p1 p2 : Vec3)
    (X_GB : Transform) (V_GB : SpatialVec)
    (Hstage : stage_leb Velocity (stage s) = true)
    (HX : nth_error (bodyTransform (positionCache s)) B = Some X_GB)
    (HV : nth_error (bodyVelocity (velocityCache s)) B = Some V_GB) :
  exists v1 v2 g1 g2,
    calcStationVelocity s B p1 = Ok v1
    /\ calcStationVelocity s B p2 = Ok v2
    /\ calcStationLocation s B p1 = Ok g1
    /\ calcStationLocation s B p2 = Ok g2
    /\ dot (vsub v1 v2) (vsub g1 g2) = 0.
Proof.
  pose proof (stage_Velocity_Position s Hstage) as Hpos.
  exists (vadd (sv1 V_GB) (cross (sv0 V_GB) (mulMV (getR X_GB) p1))),
         (vadd (sv1 V_GB) (cross (sv0 V_GB) (mulMV (getR X_GB) p2))),
         (applyTransform X_GB p1), (applyTransform X_GB p2).
  unfold calcStationVelocity, calcVectorOrientation, getBodyRotation,
    calcStationLocation.
  rewrite (getBodyVelocity_ok s B V_GB Hstage HV),
          (getBodyPosition_ok s B X_GB Hpos HX).
  repeat split.
  rewrite applyTransform_vsub.
  replace (vsub (vadd (sv1 V_GB) (cross (sv0 V_GB) (mulMV (getR X_GB) p1)))
                (vadd (sv1 V_GB) (cross (sv0 V_GB) (mulMV (getR X_GB) p2))))
    with (cross (sv0 V_GB) (mulMV (getR X_GB) (vsub p1 p2)))
    by (destruct V_GB as [w v]; simpl; by_components).
  apply cross_perpendicular.
Qed.

Lemma calcStationVelocity_rigid_witness :
  exists v1 v2 g1 g2,
    calcStationVelocity movingState rod (mkVec3 1 0 0) = Ok v1
    /\ calcStationVelocity movingState rod (mkVec3 0 2 1) = Ok v2
    /\ calcStationLocation movingState rod (mkVec3 1 0 0) = Ok g1
    /\ calcStationLocation movingState rod (mkVec3 0 2 1) = Ok g2
    /\ dot (vsub v1 v2) (vsub g1 g2) = 0.
Proof.
  apply (calcStationVelocity_rigid movingState rod (mkVec3 1 0 0)
           (mkVec3 0 2 1) X_G1 V_G1); reflexivity.
Defined.

(** X8.  Measured against a body [A] that is at rest with the identity
    transform (as Ground is), [calcStationVelocityInBody] gives the Ground
    velocity of the station plus [w_GB x T_GB]: the angular velocity acts on
    the offset from [A]'s origin, not from [B]'s. *)
Theorem calcStationVelocityInBody_resting_frame
    (s : State) (A B : BodyId) (p : Vec3)
    (X_GB : Transform) (V_GB : SpatialVec)
    (Hstage : stage_leb Velocity (stage s) = true)
    (HXA : nth_error (bodyTransform (positionCache s)) A = Some identityTransform)
    (HVA : nth_error (bodyVelocity (velocityCache s)) A = Some zeroSpatialVec)
    (HXB : nth_error (bodyTransform (positionCache s)) B = Some X_GB)
    (HVB : nth_error (bodyVelocity (velocityCache s)) B = Some V_GB) :
  exists v,
    calcStationVelocity s B p = Ok v
    /\ calcStationVelocityInBody s B p A
       = Ok (vadd v (cross (sv0 V_GB) (getT X_GB))).
Proof.
  pose proof (stage_Velocity_Position s Hstage) as Hpos.
  exists (vadd (sv1 V_GB) (cross (sv0 V_GB) (mulMV (getR X_GB) p))).
  unfold calcStationVelocityInBody, calcStationVelocity, calcStationLocation,
    calcVectorOrientation, getBodyLocation, getBodyRotation.
  rewrite (getBodyVelocity_ok s B V_GB Hstage HVB),
          (getBodyVelocity_ok s A zeroSpatialVec Hstage HVA),
          (getBodyPosition_ok s B X_GB Hpos HXB),
          (getBodyPosition_ok s A identityTransform Hpos HXA).
  split; [reflexivity |]. simpl. f_equal.
  destruct V_GB as [w v]. unfold svsub, zeroSpatialVec. simpl.
  by_components.
Qed.

Lemma calcStationVelocityInBody_resting_frame_witness :
  calcStationVelocity movingState rod (mkVec3 1 0 0) = Ok (mkVec3 0 0 0)
  /\ calcStationVelocityInBody movingState rod (mkVec3 1 0 0) GroundId
     = Ok (mkVec3 (-2) 1 0).
Proof.
  destruct (calcStationVelocityInBody_resting_frame movingState GroundId rod
              (mkVec3 1 0 0) X_G1 V_G1 eq_refl eq_refl eq_refl eq_refl eq_refl)
    as [v [Hv Hin]].
  assert (Hval : calcStationVelocity movingState rod (mkVec3 1 0 0)
                 = Ok (mkVec3 0 0 0)).
  { unfold calcStationVelocity, calcVectorOrientation, getBodyRotation.
    rewrite (getBodyVelocity_ok movingState rod V_G1 eq_refl eq_refl),
            (getBodyPosition_ok movingState rod X_G1 eq_refl eq_refl).
    simpl. f_equal. unfold V_G1, X_G1, quarterTurnZ. simpl. by_components. }
  split; [exact Hval |].
  rewrite Hval in Hv. injection Hv as <-.
  rewrite Hin. f_equal. unfold V_G1, X_G1. simpl. by_components.
Defined.

(** X9.  When bodies [A] and [B] have the same cached spatial velocity, no
    station of [B] moves relative to [A]: [calcStationVelocityInBody] is the
    zero vector, wherever the two bodies are. *)
Theorem calcStationVelocityInBody_same_velocity
    (s : State) (A B : BodyId) (p : Vec3)
    (X_GA X_GB : Transform) (V : SpatialVec)
    (Hstage : stage_leb Velocity (stage s) = true)
    (HXA : nth_error (bodyTransform (positionCache s)) A = Some X_GA)
    (HXB : nth_error (bodyTransform (positionCache s)) B = Some X_GB)
    (HVA : nth_error (bodyVelocity (velocityCache s)) A = Some V)
    (HVB : nth_error (bodyVelocity (velocityCache s)) B = Some V) :
  calcStationVelocityInBody s B p A = Ok zeroVec3.
Proof.
  pose proof (stage_Velocity_Position s Hstage) as Hpos.
  unfold calcStationVelocityInBody, calcStationLocation, getBodyLocation,
    getBodyRotation.
  rewrite (getBodyVelocity_ok s B V Hstage HVB),
          (getBodyVelocity_ok s A V Hstage HVA),
          (getBodyPosition_ok s B X_GB Hpos HXB),
          (getBodyPosition_ok s A X_GA Hpos HXA).
  simpl. rewrite !vsub_self, cross_zero_l, vadd_zero_l, mulMV_zero.
  reflexivity.
Qed.

Lemma calcStationVelocityInBody_same_velocity_witness :
  calcStationVelocityInBody convoyState trailer (mkVec3 1 2 3) rod = Ok zeroVec3.
Proof.
  apply (calcStationVelocityInBody_same_velocity convoyState rod trailer
           (mkVec3 1 2 3) X_G1 X_G2 V_G1); reflexivity.
Defined.

(** X10.  For two different bodies, with positions realized, the mass
    properties of [A] come back re-expressed by [R_AB = ~R_GA * R_GB]; the
    shortcut taken for [inBodyB = GroundId] agrees with that formula when
    Ground's cached rotation is the identity; and the mass itself is the
    stored one in every frame. *)
Theorem calcBodyMassPropertiesInBody_other_body
    (s : State) (A B : BodyId) (mp : MassProperties) (X_GA X_GB : Transform)
    (Hstage : stage_leb Position (stage s) = true)
    (Hmp : nth_error (bodyMassProperties (instanceCache s)) A = Some mp)
    (HA : nth_error (bodyTransform (positionCache s)) A = Some X_GA)
    (HB : nth_error (bodyTransform (positionCache s)) B = Some X_GB)
    (HAB : B <> A)
    (HG : B = GroundId -> getR X_GB = identity33) :
  exists mp',
    calcBodyMassPropertiesInBody s A B = Ok mp'
    /\ mp' = reexpress mp (mulMM (transpose (getR X_GA)) (getR X_GB))
    /\ getMass mp' = getMass mp.
Proof.
  exists (reexpress mp (mulMM (transpose (getR X_GA)) (getR X_GB))).
  split; [| split; reflexivity].
  assert (Hinst : stage_leb Instance (stage s) = true)
    by (apply (stage_leb_trans Instance Position); [reflexivity | assumption]).
  unfold calcBodyMassPropertiesInBody, getBodyMassProperties, lookupBody.
  rewrite (requireStage_ok _ _ Hinst). simpl. rewrite Hmp. simpl.
  apply Nat.eqb_neq in HAB. rewrite HAB.
  rewrite (getBodyPosition_ok s A X_GA Hstage HA). simpl.
  destruct (Nat.eqb B GroundId) eqn:HB0; simpl.
  - apply Nat.eqb_eq in HB0. rewrite (HG HB0), mulMM_identity_r. reflexivity.
  - rewrite (getBodyPosition_ok s B X_GB Hstage HB). reflexivity.
Qed.

Lemma calcBodyMassPropertiesInBody_other_body_witness :
  (exists mp',
     calcBodyMassPropertiesInBody convoyState rod GroundId = Ok mp'
     /\ mp' = reexpress rodMass
                (mulMM (transpose (getR X_G1)) (getR identityTransform))
     /\ getMass mp' = getMass rodMass)
  /\
  (exists mp',
     calcBodyMassPropertiesInBody convoyState rod trailer = Ok mp'
     /\ mp' = reexpress rodMass (mulMM (transpose (getR X_G1)) (getR X_G2))
     /\ getMass mp' = getMass rodMass).
Proof.
  split.
  - apply (calcBodyMassPropertiesInBody_other_body convoyState rod GroundId
             rodMass X_G1 identityTransform); try reflexivity.
    discriminate.
  - apply (calcBodyMassPropertiesInBody_other_body convoyState rod trailer
             rodMass X_G1 X_G2); try reflexivity.
    discriminate.
Defined.

(** X11.  On a state whose realized stage is below Position none of the
    position operators returns a value: each one is a stage violation
    naming Position and the actual stage. *)
Theorem position_operators_below_Position
    (s : State) (A B : BodyId) (p : Vec3)
    (Hlow : stage_ltb (stage s) Position = true) :
  let violation {T : Type} : result T :=
    Err (StageViolation Position (stage s)) in
  getBodyRotation s B = violation
  /\ getBodyLocation s B = violation
  /\ calcStationLocation s B p = violation
  /\ calcStationLocationInBody s B p A = violation
  /\ calcVectorOrientation s B p = violation
  /\ calcVectorOrientationInBody s B p A = violation.
Proof.
  cbv zeta.
  unfold calcStationLocationInBody, calcVectorOrientationInBody,
    calcVectorOrientation, calcStationLocation, getBodyRotation,
    getBodyLocation.
  rewrite !(getBodyPosition_below s _ Hlow). repeat split.
Qed.

Lemma position_operators_below_Position_witness :
  getBodyRotation instanceState rod = Err (StageViolation Position Instance)
  /\ getBodyLocation instanceState rod = Err (StageViolation Position Instance)
  /\ calcStationLocation instanceState rod zeroVec3
     = Err (StageViolation Position Instance)
  /\ calcStationLocationInBody instanceState rod zeroVec3 GroundId
     = Err (StageViolation Position Instance)
  /\ calcVectorOrientation instanceState rod zeroVec3
     = Err (StageViolation Position Instance)
  /\ calcVectorOrientationInBody instanceState rod zeroVec3 GroundId
     = Err (StageViolation Position Instance).
Proof.
  apply (position_operators_below_Position instanceState GroundId rod zeroVec3).
  reflexivity.
Defined.

(** X12.  On a state whose realized stage is below Velocity (Position
    included) none of the velocity operators returns a value: each one is a
    stage violation naming Velocity and the actual stage. *)
Theorem velocity_operators_below_Velocity
    (s : State) (A B : BodyId) (p : Vec3)
    (Hlow : stage_ltb (stage s) Velocity = true) :
  let violation {T : Type} : result T :=
    Err (StageViolation Velocity (stage s)) in
  getBodyAngularVelocity s B = violation
  /\ getBodyLinearVelocity s B = violation
  /\ calcStationVelocity s B p = violation
  /\ calcStationVelocityInBody s B p A = violation.
Proof.
  cbv zeta.
  unfold calcStationVelocityInBody, calcStationVelocity,
    getBodyAngularVelocity, getBodyLinearVelocity.
  rewrite !(getBodyVelocity_below s _ Hlow). repeat split.
Qed.

Lemma velocity_operators_below_Velocity_witness :
  getBodyAngularVelocity (setStage movingState Position) rod
  = Err (StageViolation Velocity Position)
  /\ getBodyLinearVelocity (setStage movingState Position) rod
     = Err (StageViolation Velocity Position)
  /\ calcStationVelocity (setStage movingState Position) rod zeroVec3
     = Err (StageViolation Velocity Position)
  /\ calcStationVelocityInBody (setStage movingState Position) rod zeroVec3
       GroundId
     = Err (StageViolation Velocity Position).
Proof.
  apply (velocity_operators_below_Velocity (setStage movingState Position)
           GroundId rod zeroVec3).
  reflexivity.
Defined.
